(** * Focus Session CLI: the timer, audio and keyboard state machines

    A shallow embedding of [src/focus/main.py].  Python objects become records,
    methods become functions that take the object (and the global mixer they
    drive) and return the updated copies.  Every call of [time.time()] is an
    explicit [timestamp] argument: the reading the call obtained.

    Numbers.  The program computes with Python floats; the specification
    speaks of real seconds.  Time stamps, durations and volumes are exact
    rationals here, so statements about sums of deltas are statements about the
    real-valued design, not about binary64 rounding. *)

From Stdlib Require Import QArith Qminmax Qround Lqa Lia ZArith List Bool String Ascii
  DecimalString.
Import ListNotations.
Local Open Scope string_scope.
Local Open Scope list_scope.
Local Open Scope Q_scope.

Definition timestamp := Q.

(** ** Python arithmetic and formatting used by the display *)

(** [int(x)] of a float: truncation toward zero *)
Definition int_of (x : Q) : Z :=
  if Qle_bool 0 x then Qfloor x else Qceiling x.

(** [x // y] and [x % y] on floats, [y] not zero: the floored quotient and
    the remainder that goes with it *)
Definition floordiv (x y : Q) : Q := inject_Z (Qfloor (x / y)).
Definition pymod (x y : Q) : Q := x - y * inject_Z (Qfloor (x / y)).

(** [x > y] is [y < x] *)
Definition Qlt_bool (x y : Q) : bool := negb (Qle_bool y x).

(** [str(n)] of an integer *)
Definition str_int (n : Z) : string := NilZero.string_of_int (Z.to_int n).

(** The format [{n:02d}]: decimal, padded with a zero to two characters *)
Definition format_02d (n : Z) : string :=
  let s := str_int n in
  if (String.length s <? 2)%nat then "0" ++ s else s.

(** The decimal digit for [n] between 0 and 9, and the two digits of a
    number between 0 and 99, tens first: what the display is read as *)
Definition digit (n : Z) : ascii := ascii_of_nat (48 + Z.to_nat n).
Definition two_digits (n : Z) : string :=
  String (digit (n / 10)) (String (digit (n mod 10)) EmptyString).

(** [sub in s] on strings *)
Definition contains (sub s : string) : bool :=
  match String.index 0 sub s with
  | Some _ => true
  | None => false
  end.

(** The truth value of a string: it is not empty *)
Definition nonempty (s : string) : bool :=
  match s with EmptyString => false | String _ _ => true end.

(** ** The mixer: [pygame.mixer.music] *)

Module Music.

(** Modelled from the spec: the Audio Channel's device state
    (loaded track, volume, play/pause status).  [pygame] itself is a
    third-party library; only the calls the program makes are given. *)
Record t := mk {
  track : option string;
  loops : Z;
  playing : bool;
  paused : bool;
  volume : Q
}.

(** [pygame.mixer.init()] *)
Definition init : t := mk None 0 false false 1.

Definition load (f : string) (m : t) : t :=
  mk (Some f) (loops m) false false (volume m).

Definition play (n : Z) (m : t) : t :=
  mk (track m) n true false (volume m).

Definition stop (m : t) : t :=
  mk (track m) (loops m) false false (volume m).

Definition pause (m : t) : t :=
  mk (track m) (loops m) (playing m) true (volume m).

Definition unpause (m : t) : t :=
  mk (track m) (loops m) (playing m) false (volume m).

Definition set_volume (v : Q) (m : t) : t :=
  mk (track m) (loops m) (playing m) (paused m) v.

Definition get_volume (m : t) : Q := volume m.

(** [get_busy()]: actively producing sound, false while paused or stopped *)
Definition get_busy (m : t) : bool := playing m && negb (paused m).

(** The device reaching the end of a track that does not loop. *)
Definition track_ended (m : t) : t :=
  if (loops m =? 0)%Z then mk (track m) (loops m) false (paused m) (volume m) else m.

End Music.

(** ** [class AudioPlayer] *)

Module AudioPlayer.

Record t := mk {
  is_muted : bool;
  saved_volume : Q
}.

Definition set_is_muted (b : bool) (a : t) : t := mk b (saved_volume a).
Definition set_saved_volume (v : Q) (a : t) : t := mk (is_muted a) v.

(** [__init__]: initialises the mixer and the two attributes *)
Definition init : t * Music.t := (mk false 1, Music.init).

Definition play (file_path : string) (loop : bool) (m : Music.t) : Music.t :=
  let m := Music.load file_path m in
  let loops := if loop then (-1)%Z else 0%Z in
  Music.play loops m.

Definition stop (m : Music.t) : Music.t := Music.stop m.
Definition pause (m : Music.t) : Music.t := Music.pause m.
Definition unpause (m : Music.t) : Music.t := Music.unpause m.

Definition toggle_mute (a : t) (m : Music.t) : bool * t * Music.t :=
  if is_muted a then
    let m := Music.set_volume (saved_volume a) m in
    let a := set_is_muted false a in
    (is_muted a, a, m)
  else
    let a := set_saved_volume (Music.get_volume m) a in
    let m := Music.set_volume 0 m in
    let a := set_is_muted true a in
    (is_muted a, a, m).

Definition is_playing (m : Music.t) : bool := Music.get_busy m.

(** [toggle_mute()] twice in succession; the mixer that results *)
Definition toggle_mute_twice (a : t) (m : Music.t) : t * Music.t :=
  let '(_, a, m) := toggle_mute a m in
  let '(_, a, m) := toggle_mute a m in
  (a, m).

(** What a muted player has done to the mixer: silenced it. *)
Definition silenced_when_muted (a : t) (m : Music.t) : Prop :=
  is_muted a = true -> Music.volume m == 0.

End AudioPlayer.

(** ** [class FocusSession] *)

Module FocusSession.

Record t := mk {
  duration : Q;
  is_paused : bool;
  session_active : bool;
  time_remaining : Q;
  last_update : timestamp
}.

Definition set_is_paused (b : bool) (s : t) : t :=
  mk (duration s) b (session_active s) (time_remaining s) (last_update s).
Definition set_session_active (b : bool) (s : t) : t :=
  mk (duration s) (is_paused s) b (time_remaining s) (last_update s).
Definition set_time_remaining (r : Q) (s : t) : t :=
  mk (duration s) (is_paused s) (session_active s) r (last_update s).
Definition set_last_update (now : timestamp) (s : t) : t :=
  mk (duration s) (is_paused s) (session_active s) (time_remaining s) now.

(** [__init__(duration_minutes, audio_player)]; [now] is its [time.time()] *)
Definition init (duration_minutes : Q) (now : timestamp) : t :=
  let duration := duration_minutes * 60 in
  mk duration false true duration now.

(** [toggle_pause]; [now] is read only on the resuming branch.  The audio
    player held by the session is the caller's one: its mixer is threaded. *)
Definition toggle_pause (now : timestamp) (s : t) (m : Music.t)
  : bool * t * Music.t :=
  let s := set_is_paused (negb (is_paused s)) s in
  if is_paused s then
    let m := AudioPlayer.pause m in
    (is_paused s, s, m)
  else
    let m := AudioPlayer.unpause m in
    let s := set_last_update now s in
    (is_paused s, s, m).

Definition update_timer (now : timestamp) (s : t) : t :=
  if negb (is_paused s) && session_active s then
    let current_time := now in
    let elapsed := current_time - last_update s in
    let s := set_time_remaining (time_remaining s - elapsed) s in
    let s := set_last_update current_time s in
    if Qle_bool (time_remaining s) 0 then
      let s := set_session_active false s in
      set_time_remaining 0 s
    else s
  else s.

Definition is_complete (s : t) : bool := negb (session_active s).

(** [get_progress_string()]: its two locals, then the formatted string *)
Definition progress_minutes (s : t) : Z := int_of (floordiv (time_remaining s) 60).
Definition progress_seconds (s : t) : Z := int_of (pymod (time_remaining s) 60).

Definition get_progress_string (s : t) : string :=
  let minutes := progress_minutes s in
  let seconds := progress_seconds s in
  format_02d minutes ++ ":" ++ format_02d seconds.

Definition get_progress_percentage (s : t) : Q :=
  let elapsed := duration s - time_remaining s in
  if Qlt_bool 0 (duration s) then (elapsed / duration s) * 100 else 100.

(** [update_timer()] called once at each of the readings [nows], in order *)
Definition updates (s : t) (nows : list timestamp) : t :=
  fold_left (fun s now => update_timer now s) nows s.

End FocusSession.

(** ** [class KeyboardInput] *)

(** An operation either returns or raises. *)
Inductive result (A : Type) : Type :=
| Ok (a : A)
| Raise (e : string).
Arguments Ok {A} a.
Arguments Raise {A} e.

Module KeyboardInput.

(** [sys.platform == 'win32'] or anything else *)
Inductive platform := Win32 | Posix.

Definition is_win32 (p : platform) : bool :=
  match p with Win32 => true | Posix => false end.

(** Modelled from the spec: the terminal's mode settings, as the seven-entry
    list [termios.tcgetattr] returns, and the terminal that holds them.
    [is_tty] says whether [tcgetattr] succeeds on stdin; [restores] lists
    the settings written by [tcsetattr], latest first. *)
Record termios_attr := mk_attr {
  iflag : Z; oflag : Z; cflag : Z; lflag : Z;
  ispeed : Z; ospeed : Z; cc : list Z
}.

Record Terminal := mk_term {
  is_tty : bool;
  attrs : termios_attr;
  restores : list termios_attr
}.

Record t := mk { old_settings : option termios_attr }.

(** [__init__] *)
Definition init : t := mk None.

(** Truth value of [self.old_settings]: [None] is false, the list of
    [tcgetattr] has seven entries and is true. *)
Definition truthy (o : option termios_attr) : bool :=
  match o with None => false | Some _ => true end.

Section Scope.

(** [tty.setraw] on the attributes, left open: any transformation. *)
Variable raw_mode : termios_attr -> termios_attr.

Definition setraw (term : Terminal) : Terminal :=
  mk_term (is_tty term) (raw_mode (attrs term)) (restores term).

Definition tcsetattr (a : termios_attr) (term : Terminal) : Terminal :=
  mk_term (is_tty term) a (a :: restores term).

(** [__enter__]: the object is returned in both outcomes, as the
    assignment to [old_settings] happens only after [tcgetattr] returned *)
Definition enter (p : platform) (kb : t) (term : Terminal)
  : result unit * t * Terminal :=
  if negb (is_win32 p) then
    if is_tty term then
      let kb := mk (Some (attrs term)) in
      let term := setraw term in
      (Ok tt, kb, term)
    else (Raise "termios.error", kb, term)
  else (Ok tt, kb, term).

(** [__exit__] *)
Definition exit (p : platform) (kb : t) (term : Terminal) : Terminal :=
  if negb (is_win32 p) && truthy (old_settings kb) then
    match old_settings kb with
    | Some a => tcsetattr a term
    | None => term
    end
  else term.

(** [with KeyboardInput() as kb: body]: when [__enter__] raises, the body
    and [__exit__] are skipped and the exception leaves the statement;
    otherwise [__exit__] runs on every way out of the body, and the
    body's outcome [r] (a value, a [break], an exception: the caller's
    type [R] tells them apart) is passed on unchanged. *)
Definition with_ {R : Type} (p : platform) (term : Terminal)
    (body : t -> Terminal -> R * Terminal)
  : result R * t * Terminal :=
  match enter p init term with
  | (Raise e, kb, term) => (Raise e, kb, term)
  | (Ok _, kb, term) =>
      let '(r, term) := body kb term in
      (Ok r, kb, exit p kb term)
  end.

End Scope.

(** [str.lower()] on an ASCII character *)
Definition lower_char (c : ascii) : ascii :=
  let n := nat_of_ascii c in
  if ((65 <=? n) && (n <=? 90))%nat then ascii_of_nat (n + 32) else c.

(** [str.lower()] on a [str] of ASCII characters *)
Fixpoint lower (s : string) : string :=
  match s with
  | EmptyString => EmptyString
  | String c s => String (lower_char c) (lower s)
  end.

(** [bytes.decode('utf-8', errors='ignore')] on a single byte: an ASCII
    byte is its character, any other byte alone is no complete sequence
    and is dropped. *)
Definition decode_ignore1 (b : ascii) : string :=
  if (nat_of_ascii b <? 128)%nat then String b EmptyString else EmptyString.

(** [key in [b'\x00', b'\xe0']] *)
Definition is_special (b : ascii) : bool :=
  (nat_of_ascii b =? 0)%nat || (nat_of_ascii b =? 224)%nat.

(** A character of a Python [str], given by its UTF-8 bytes: one byte below
    128 for ASCII, two to four bytes otherwise.  A [str] is the
    concatenation of its characters, so the keys the loops compare with are
    the one-byte strings. *)
Definition uchar := string.

(** The keyboard as the two branches of [get_key] see it.  On win32: the
    bytes [msvcrt.getch()] will hand out.  Elsewhere: the characters waiting
    at the descriptor of stdin, which is all [select] looks at, and the
    characters the text stream [sys.stdin] has taken off the descriptor and
    not returned yet.  Input is taken to arrive in whole characters and in
    bursts below the stream's chunk of 8192 bytes. *)
Record Input := mk_input {
  console : list ascii;
  buffered : list uchar;
  fd : list uchar
}.

(** The escape character that starts a terminal's special-key sequence *)
Definition esc : ascii := ascii_of_nat 27.
Definition esc_key : uchar := String esc EmptyString.

(** [sys.stdin.read(1)] with something to read: a buffered character if
    there is one; otherwise the stream takes all that waits at the
    descriptor and hands out the first character of it. *)
Definition read1 (inp : Input) : string * Input :=
  match buffered inp with
  | c :: b => (c, mk_input (console inp) b (fd inp))
  | [] =>
      match fd inp with
      | c :: rest => (c, mk_input (console inp) rest [])
      | [] => (EmptyString, inp)
      end
  end.

Section Poll.

(** [str.lower()] on a character outside ASCII, left open: it may give
    more than one character. *)
Variable unicode_lower : uchar -> string.

Definition lower_uchar (c : uchar) : string :=
  match c with
  | String a EmptyString =>
      if (nat_of_ascii a <? 128)%nat then String (lower_char a) EmptyString
      else unicode_lower c
  | _ => unicode_lower c
  end.

(** [get_key(timeout)], with the input that is there within the timeout.
    Returned: the key and the input as the poll leaves it. *)
Definition get_key (p : platform) (inp : Input) : option string * Input :=
  if is_win32 p then
    match console inp with
    | [] => (None, inp)
    | key :: rest =>
        if is_special key
        then (None, mk_input (tl rest) (buffered inp) (fd inp))
        else (Some (lower (decode_ignore1 key)),
              mk_input rest (buffered inp) (fd inp))
    end
  else
    match fd inp with
    | [] => (None, inp)
    | _ :: _ =>
        let '(key, inp) := read1 inp in
        (Some (lower_uchar key), inp)
    end.

(** [n] successive polls with no new input in between *)
Fixpoint get_keys (p : platform) (n : nat) (inp : Input)
  : list (option string) :=
  match n with
  | O => []
  | S n =>
      let '(k, inp) := get_key p inp in
      k :: get_keys p n inp
  end.

End Poll.

End KeyboardInput.

(** [key == c] for the value [get_key] returned *)
Definition key_is (key : option string) (c : string) : bool :=
  match key with
  | Some k => String.eqb k c
  | None => false
  end.

(** ** [class MeditationPlayer] *)

Module MeditationPlayer.

Record t := mk {
  file_path : string;
  skip_requested : bool;
  is_paused : bool
}.

Definition set_skip_requested (b : bool) (s : t) : t :=
  mk (file_path s) b (is_paused s).
Definition set_is_paused (b : bool) (s : t) : t :=
  mk (file_path s) (skip_requested s) b.

(** [__init__(audio_player, file_path)] *)
Definition init (file : string) : t := mk file false false.

(** The object, the mixer behind its audio player, and the two locals of
    [play_with_progress] that survive an iteration. *)
Record frame := mk_frame {
  self : t;
  music : Music.t;
  start_time : timestamp;
  elapsed_time : Q
}.

Definition set_self (s : t) (f : frame) : frame :=
  mk_frame s (music f) (start_time f) (elapsed_time f).
Definition set_music (m : Music.t) (f : frame) : frame :=
  mk_frame (self f) m (start_time f) (elapsed_time f).
Definition set_start_time (x : timestamp) (f : frame) : frame :=
  mk_frame (self f) (music f) x (elapsed_time f).
Definition set_elapsed_time (x : Q) (f : frame) : frame :=
  mk_frame (self f) (music f) (start_time f) x.

(** One call of [kb.get_key(0.1)] as the loop sees it: whether the track
    ran out while waiting, the key returned, and the reading every
    [time.time()] up to the next poll gives. *)
Record Poll := mk_poll {
  ended : bool;
  key : option string;
  now : timestamp
}.

(** Where control is: at the head of the outer [while], or at the head of
    the inner pause loop, which remembers [pause_start]. *)
Inductive pc := Outer | Inner (pause_start : timestamp).

Inductive next := Goto (at_ : pc) | Exit | Throw (e : string).

(** [(is_playing() or self.is_paused) and not self.skip_requested] *)
Definition outer_cond (f : frame) : bool :=
  (AudioPlayer.is_playing (music f) || is_paused (self f))
  && negb (skip_requested (self f)).

(** The second half of an outer iteration, after the key was handled *)
Definition advance (duration_ms : Q) (p : Poll) (f : frame) : frame * next :=
  if negb (is_paused (self f)) then
    let current_time := now p in
    let f := set_elapsed_time ((current_time - start_time f) * 1000) f in
    if Qeq_bool duration_ms 0 then (f, Throw "ZeroDivisionError")
    else if Qle_bool duration_ms (elapsed_time f) then (f, Exit)
         else (f, Goto Outer)
  else
    let pause_start := now p in
    (f, Goto (Inner pause_start)).

(** One iteration of the outer loop, its condition already found true *)
Definition outer_step (duration_ms : Q) (p : Poll) (f : frame) : frame * next :=
  let f := if ended p then set_music (Music.track_ended (music f)) f else f in
  if key_is (key p) " " then
    let f := set_self (set_is_paused (negb (is_paused (self f))) (self f)) f in
    let f := if is_paused (self f)
             then set_music (AudioPlayer.pause (music f)) f
             else set_music (AudioPlayer.unpause (music f)) f in
    advance duration_ms p f
  else if key_is (key p) "s" then
    (set_self (set_skip_requested true (self f)) f, Exit)
  else advance duration_ms p f.

(** One iteration of the inner loop; on leaving it without a skip the
    paused interval is added to [start_time]. *)
Definition inner_step (pause_start : timestamp) (p : Poll) (f : frame)
  : frame * next :=
  if key_is (key p) " " then
    let f := set_self (set_is_paused false (self f)) f in
    let f := set_music (AudioPlayer.unpause (music f)) f in
    let pause_duration := now p - pause_start in
    (set_start_time (start_time f + pause_duration) f, Goto Outer)
  else if key_is (key p) "s" then
    (set_self (set_skip_requested true (self f)) f, Goto Outer)
  else (f, Goto (Inner pause_start)).

(** The nested loops, one poll per step, with the frame at the moment
    control leaves them, normally or by an exception.  [None]: the polls
    ran out with the loop still running. *)
Fixpoint loop (duration_ms : Q) (at_ : pc) (f : frame) (polls : list Poll)
  : option (result unit * frame) :=
  match at_, polls with
  | Outer, [] => if outer_cond f then None else Some (Ok tt, f)
  | Outer, p :: polls =>
      if outer_cond f then
        match outer_step duration_ms p f with
        | (f, Goto a) => loop duration_ms a f polls
        | (f, Exit) => Some (Ok tt, f)
        | (f, Throw e) => Some (Raise e, f)
        end
      else Some (Ok tt, f)
  | Inner _, [] => None
  | Inner pause_start, p :: polls =>
      match inner_step pause_start p f with
      | (f, Goto a) => loop duration_ms a f polls
      | (f, Exit) => Some (Ok tt, f)
      | (f, Throw e) => Some (Raise e, f)
      end
  end.

(** Where the loops stand after [polls], if they are still running then:
    at the head of the outer loop with its condition true, or in the pause
    loop.  [None]: they were left on the way. *)
Fixpoint progress (duration_ms : Q) (at_ : pc) (f : frame) (polls : list Poll)
  : option (pc * frame) :=
  match at_, polls with
  | Outer, [] => if outer_cond f then Some (Outer, f) else None
  | Outer, p :: polls =>
      if outer_cond f then
        match outer_step duration_ms p f with
        | (f, Goto a) => progress duration_ms a f polls
        | _ => None
        end
      else None
  | Inner pause_start, [] => Some (Inner pause_start, f)
  | Inner pause_start, p :: polls =>
      match inner_step pause_start p f with
      | (f, Goto a) => progress duration_ms a f polls
      | _ => None
      end
  end.

Inductive outcome := Skipped | Complete.

(** The statements after the [with] blocks: stop the audio, report. *)
Definition report (f : frame) : outcome * frame :=
  let f := set_music (AudioPlayer.stop (music f)) f in
  if skip_requested (self f) then (Skipped, f) else (Complete, f).

Section Play.

Variable raw_mode : KeyboardInput.termios_attr -> KeyboardInput.termios_attr.
Variable plat : KeyboardInput.platform.

(** [play_with_progress()]: [length] is [sound.get_length()], [t0] the
    reading that initialises [start_time].  An exception that leaves the
    [with] blocks skips the statements after them. *)
Definition play_with_progress (length : Q) (t0 : timestamp) (polls : list Poll)
    (s : t) (m : Music.t) (term : KeyboardInput.Terminal)
  : option (result outcome * frame * KeyboardInput.Terminal) :=
  let duration_ms := length * 1000 in
  let m := AudioPlayer.play (file_path s) false m in
  let start_time := t0 in
  let elapsed_time := 0 in
  let f := mk_frame s m start_time elapsed_time in
  match KeyboardInput.with_ raw_mode plat term
          (fun kb term => (loop duration_ms Outer f polls, term)) with
  | (Raise e, _, term) => Some (Raise e, f, term)
  | (Ok None, _, _) => None
  | (Ok (Some (Raise e, f)), _, term) => Some (Raise e, f, term)
  | (Ok (Some (Ok _, f)), _, term) =>
      let '(o, f) := report f in
      Some (Ok o, f, term)
  end.

End Play.

End MeditationPlayer.

(** ** [main]: the focus phase *)

Module Main.

(** [click.Choice(['1', '11', '21', '31'])] *)
Inductive choice := Min1 | Min11 | Min21 | Min31.

(** [int(duration)] *)
Definition minutes (c : choice) : Z :=
  match c with Min1 => 1 | Min11 => 11 | Min21 => 21 | Min31 => 31 end%Z.

(** What the user is shown or made to hear once the loop is over *)
Inductive ui :=
| CompletePanel
| Notification
| NotificationSound
| AwaitEnter
| EndedEarlyPanel.

(** One iteration's inputs: the key [kb.get_key(0.1)] returned, the reading
    [toggle_pause] takes if it resumes, the reading [update_timer] takes
    if it runs. *)
Record Tick := mk_tick {
  key : option string;
  t_toggle : timestamp;
  t_update : timestamp
}.

(** The objects the loop works on.  [session.audio_player] and the local
    [audio_player] are one object, driving the one mixer. *)
Record state := mk {
  music : Music.t;
  audio_player : AudioPlayer.t;
  session : FocusSession.t;
  last_status_msg : string
}.

Inductive flow := Continue | Break.

(** [session.update_timer()] and the redraw that ends an iteration; the
    display is written and never read back, it is left out. *)
Definition refresh (tk : Tick) (w : state) : state * flow :=
  (mk (music w) (audio_player w)
      (FocusSession.update_timer (t_update tk) (session w))
      (last_status_msg w),
   Continue).

(** The body of [while not session.is_complete()] *)
Definition tick (tk : Tick) (w : state) : state * flow :=
  if key_is (key tk) " " then
    let '(is_paused, s, m) :=
      FocusSession.toggle_pause (t_toggle tk) (session w) (music w) in
    let msg := if is_paused then "PAUSED" else "RESUMED" in
    refresh tk (mk m (audio_player w) s msg)
  else if key_is (key tk) "m" then
    let '(is_muted, a, m) :=
      AudioPlayer.toggle_mute (audio_player w) (music w) in
    let msg := if is_muted then "MUTED" else "SOUND ON" in
    refresh tk (mk m a (session w) msg)
  else if key_is (key tk) "q" then
    (mk (music w) (audio_player w)
        (FocusSession.set_session_active false (session w))
        (last_status_msg w),
     Break)
  else refresh tk w.

(** The status line an iteration draws after [update_timer()].  Its styled
    pieces are kept apart: the time, the count of filled and of empty bar
    cells (a string times a negative count is empty), and the label, absent
    when the message is not empty and holds none of the four words. *)
Inductive label := ACTIVE | PAUSED | RESUMED | MUTED | SOUND_ON.

Record Display := mk_display {
  time_str : string;
  filled_cells : nat;
  empty_cells : nat;
  shown_label : option label
}.

Definition status_label (last_status_msg : string) : option label :=
  if nonempty last_status_msg then
    if contains "PAUSED" last_status_msg then Some PAUSED
    else if contains "RESUMED" last_status_msg then Some RESUMED
    else if contains "MUTED" last_status_msg then Some MUTED
    else if contains "SOUND ON" last_status_msg then Some SOUND_ON
    else None
  else Some ACTIVE.

Definition render (w : state) : Display :=
  let time_str := FocusSession.get_progress_string (session w) in
  let progress := FocusSession.get_progress_percentage (session w) in
  let filled := int_of (progress / 5) in
  mk_display time_str (Z.to_nat filled) (Z.to_nat (20 - filled))
    (status_label (last_status_msg w)).

(** Whether the loop has been left, or the ticks ran out with it running *)
Inductive status := Running | Exited.

(** The loop, with the state at its exit or where the ticks ran out *)
Fixpoint loop (w : state) (ticks : list Tick) : state * status :=
  if FocusSession.is_complete (session w) then (w, Exited)
  else
    match ticks with
    | [] => (w, Running)
    | tk :: ticks =>
        match tick tk w with
        | (w, Break) => (w, Exited)
        | (w, Continue) => loop w ticks
        end
    end.

(** The readings of the iterations come in order, from [t] on. *)
Fixpoint in_order (t : timestamp) (ticks : list Tick) : Prop :=
  match ticks with
  | [] => True
  | tk :: ticks =>
      t <= t_toggle tk /\ t_toggle tk <= t_update tk
      /\ in_order (t_update tk) ticks
  end.

(** While the session is active there is time left. *)
Definition live (w : state) : Prop :=
  FocusSession.session_active (session w) = true ->
  0 < FocusSession.time_remaining (session w).

(** The statements after the loop, up to the [finally] clause *)
Definition wrap_up (w : state) : state * list ui :=
  let m := AudioPlayer.stop (music w) in
  if Qeq_bool (FocusSession.time_remaining (session w)) 0 then
    let m := AudioPlayer.play "notification.wav" true m in
    (mk m (audio_player w) (session w) (last_status_msg w),
     [CompletePanel; Notification; NotificationSound; AwaitEnter])
  else
    (mk m (audio_player w) (session w) (last_status_msg w),
     [EndedEarlyPanel]).

(** The [finally] clause *)
Definition cleanup (w : state) : state :=
  mk (AudioPlayer.stop (music w)) (audio_player w) (session w) (last_status_msg w).

(** The state the loop is entered in: rain playing in a loop, a fresh
    session of the chosen length, no status message. *)
Definition start (c : choice) (t0 : timestamp) (a : AudioPlayer.t) (m : Music.t)
  : state :=
  let m := AudioPlayer.play "rain.mp3" true m in
  let session := FocusSession.init (inject_Z (minutes c)) t0 in
  mk m a session EmptyString.

(** What can fail outside the program's own logic.  Each field, when set,
    is the exception the call raises: loading the rain track (line 332,
    ahead of the [try]); [kb.get_key] in the iteration of that index,
    counted from 0; [show_notification()]; loading the notification sound;
    [input()]. *)
Record Faults := mk_faults {
  rain_load : option string;
  poll_read : option (nat * string);
  notify : option string;
  notification_load : option string;
  prompt : option string
}.

Definition no_faults : Faults := mk_faults None None None None None.

(** The loop when a poll may raise: the iterations before the failing one
    run, the exception leaves the loop with the state they produced.
    [None]: the ticks ran out with the loop running and no exception. *)
Definition loop_or_raise (fl : Faults) (w : state) (ticks : list Tick)
  : option (result unit * state) :=
  match poll_read fl with
  | None =>
      match loop w ticks with
      | (w, Exited) => Some (Ok tt, w)
      | (_, Running) => None
      end
  | Some (k, e) =>
      match loop w (firstn k ticks) with
      | (w, Exited) => Some (Ok tt, w)
      | (w, Running) =>
          if (k <? List.length ticks)%nat then Some (Raise e, w) else None
      end
  end.

(** The statements after the loop when the notification, its sound or the
    prompt may raise; without an exception they are [wrap_up]. *)
Definition wrap_up_or_raise (fl : Faults) (w : state) : result (list ui) * state :=
  let stopped :=
    mk (AudioPlayer.stop (music w)) (audio_player w) (session w) (last_status_msg w) in
  if Qeq_bool (FocusSession.time_remaining (session w)) 0 then
    match notify fl with
    | Some e => (Raise e, stopped)
    | None =>
        match notification_load fl with
        | Some e => (Raise e, stopped)
        | None =>
            match prompt fl with
            | Some e => (Raise e, fst (wrap_up w))
            | None => (Ok (snd (wrap_up w)), fst (wrap_up w))
            end
        end
    end
  else (Ok (snd (wrap_up w)), fst (wrap_up w)).

(** How the phase ended: what it returned or raised, the session state if
    a session was created, the mixer and the terminal it leaves. *)
Record Ending := mk_ending {
  outcome : result (list ui);
  ended_in : option state;
  mixer : Music.t;
  terminal : KeyboardInput.Terminal
}.

Section Phase.

Variable raw_mode : KeyboardInput.termios_attr -> KeyboardInput.termios_attr.
Variable plat : KeyboardInput.platform.

(** From "Start rain sound" to the end of [main]: [t0] is the reading
    [FocusSession.__init__] takes.  The rain track is loaded ahead of the
    [try]; everything from the keyboard scope to the prompt is inside it,
    and the [finally] clause runs on every way out of it.  [None]: the ticks
    ran out. *)
Definition focus_phase (fl : Faults) (c : choice) (t0 : timestamp)
    (ticks : list Tick) (a : AudioPlayer.t) (m : Music.t)
    (term : KeyboardInput.Terminal)
  : option Ending :=
  match rain_load fl with
  | Some e => Some (mk_ending (Raise e) None m term)
  | None =>
      let w := start c t0 a m in
      match KeyboardInput.with_ raw_mode plat term
              (fun kb term => (loop_or_raise fl w ticks, term)) with
      | (Raise e, _, term) =>
          Some (mk_ending (Raise e) (Some (cleanup w)) (music (cleanup w)) term)
      | (Ok None, _, _) => None
      | (Ok (Some (Raise e, w)), _, term) =>
          Some (mk_ending (Raise e) (Some (cleanup w)) (music (cleanup w)) term)
      | (Ok (Some (Ok _, w)), _, term) =>
          let '(r, w) := wrap_up_or_raise fl w in
          Some (mk_ending r (Some (cleanup w)) (music (cleanup w)) term)
      end
  end.

End Phase.

End Main.

(** ** Timer histories *)

Module Timeline.

(** A call on the timer with the clock reading it is made at *)
Inductive event :=
| Update (now : timestamp)
| Toggle (now : timestamp).

Definition at_ (e : event) : timestamp :=
  match e with Update now => now | Toggle now => now end.

Definition step (sm : FocusSession.t * Music.t) (e : event)
  : FocusSession.t * Music.t :=
  match e with
  | Update now => (FocusSession.update_timer now (fst sm), snd sm)
  | Toggle now =>
      let '(_, s, m) := FocusSession.toggle_pause now (fst sm) (snd sm) in
      (s, m)
  end.

Definition run (sm : FocusSession.t * Music.t) (es : list event)
  : FocusSession.t * Music.t :=
  fold_left step es sm.

(** One pause/resume pair and what follows it: the pause keypress, the
    update calls made while paused, the resume keypress, the update calls
    made while running again. *)
Record pause := mk_pause {
  paused_at : timestamp;
  idle : list timestamp;
  resumed_at : timestamp;
  running : list timestamp
}.

(** The life of a timer: update calls from its creation on, then pauses. *)
Record history := mk_history {
  first_running : list timestamp;
  pauses : list pause
}.

Definition pause_events (p : pause) : list event :=
  Toggle (paused_at p) :: map Update (idle p)
  ++ Toggle (resumed_at p) :: map Update (running p).

(** From the pause keypress to the resume keypress *)
Definition pause_prefix (p : pause) : list event :=
  Toggle (paused_at p) :: map Update (idle p) ++ [Toggle (resumed_at p)].

Definition events (h : history) : list event :=
  map Update (first_running h) ++ flat_map pause_events (pauses h).

(** How many [toggle_pause()] calls a sequence of calls holds *)
Definition toggles (es : list event) : nat :=
  List.length (filter (fun e => match e with Toggle _ => true | Update _ => false end) es).

Fixpoint nondecreasing (prev : timestamp) (ts : list timestamp) : Prop :=
  match ts with
  | [] => True
  | t :: ts => prev <= t /\ nondecreasing t ts
  end.

(** The clock never runs backwards, from the creation at [t0] on. *)
Definition chronological (t0 : timestamp) (h : history) : Prop :=
  nondecreasing t0 (map at_ (events h)).

(** Wall-clock time in the running state, from [from] (creation or resume)
    with update calls at [ups], up to the last call of the history: each
    running interval ends at the next pause keypress, the last one at the
    last update call. *)
Fixpoint running_wall_clock (from : timestamp) (ups : list timestamp)
    (ps : list pause) : Q :=
  match ps with
  | [] => last ups from - from
  | p :: ps =>
      (paused_at p - from) + running_wall_clock (resumed_at p) (running p) ps
  end.

(** Wall-clock time between the last update call of a running interval
    and the pause keypress that ends it, summed over the pauses. *)
Fixpoint before_pause (from : timestamp) (ups : list timestamp)
    (ps : list pause) : Q :=
  match ps with
  | [] => 0
  | p :: ps =>
      (paused_at p - last ups from) + before_pause (resumed_at p) (running p) ps
  end.

(** Wall-clock time spent paused *)
Definition paused_time (ps : list pause) : Q :=
  fold_right (fun p acc => (resumed_at p - paused_at p) + acc) 0 ps.

(** When the last call of the history is made *)
Definition finish (t0 : timestamp) (h : history) : timestamp :=
  last (map at_ (events h)) t0.

(** A timer of duration [D] seen at clock reading [t]: its last update is
    not in the future, and what remains lies between 0 and [D]. *)
Definition bounded (D : Q) (t : timestamp) (s : FocusSession.t) : Prop :=
  FocusSession.last_update s <= t
  /\ 0 <= FocusSession.time_remaining s
  /\ FocusSession.time_remaining s <= D
  /\ FocusSession.duration s = D.

(** The bookkeeping behind a timer of duration [D]: [c] seconds have been
    charged so far, the last charge was made at [lu]. *)
Definition accounted (D c : Q) (lu : timestamp) (s : FocusSession.t) : Prop :=
  if FocusSession.session_active s
  then FocusSession.last_update s == lu
       /\ FocusSession.time_remaining s == D - c /\ 0 <= D - c
  else FocusSession.time_remaining s == 0 /\ D - c <= 0.

End Timeline.

(** ** The focus loop as a timer history *)

(** The calls an iteration makes on the timer: the space key toggles at
    [t_toggle], and every iteration that is not a quit updates at
    [t_update]. *)
Definition tick_events (tk : Main.Tick) : list Timeline.event :=
  if key_is (Main.key tk) " " then
    [Timeline.Toggle (Main.t_toggle tk); Timeline.Update (Main.t_update tk)]
  else if key_is (Main.key tk) "m" then [Timeline.Update (Main.t_update tk)]
  else if key_is (Main.key tk) "q" then []
  else [Timeline.Update (Main.t_update tk)].

(* ================================================================== *)
(** * Properties *)

(** ** The timer under pause *)

Lemma update_timer_paused now s :
  FocusSession.is_paused s = true -> FocusSession.update_timer now s = s.
Proof.
  intros Hp. unfold FocusSession.update_timer. now rewrite Hp.
Qed.

Lemma update_timer_inactive now s :
  FocusSession.session_active s = false -> FocusSession.update_timer now s = s.
Proof.
  intros Ha. unfold FocusSession.update_timer.
  rewrite Ha. now rewrite andb_false_r.
Qed.

Lemma updates_paused nows s :
  FocusSession.is_paused s = true -> FocusSession.updates s nows = s.
Proof.
  intros Hp. unfold FocusSession.updates.
  induction nows as [|now nows IH]; simpl; [reflexivity|].
  now rewrite update_timer_paused.
Qed.

Lemma updates_inactive nows s :
  FocusSession.session_active s = false -> FocusSession.updates s nows = s.
Proof.
  intros Ha. unfold FocusSession.updates.
  induction nows as [|now nows IH]; simpl; [reflexivity|].
  now rewrite update_timer_inactive.
Qed.

(** C2. While [is_paused] holds, any finite sequence of [update_timer()]
    calls, at whatever clock readings, leaves [time_remaining] as it was
    (and the timer paused). *)
Theorem paused_updates_keep_time_remaining (s : FocusSession.t) (nows : list timestamp) :
  FocusSession.is_paused s = true ->
  FocusSession.time_remaining (FocusSession.updates s nows)
  = FocusSession.time_remaining s
  /\ FocusSession.is_paused (FocusSession.updates s nows) = true.
Proof.
  intros Hp. rewrite (updates_paused nows s Hp). split; [reflexivity | exact Hp].
Qed.

Lemma paused_updates_keep_time_remaining_witness :
  let s := FocusSession.mk 60 true true 42 7 in
  FocusSession.is_paused s = true
  /\ FocusSession.time_remaining (FocusSession.updates s [8; 100; 5000]) = 42.
Proof.
  split; [reflexivity|].
  apply (paused_updates_keep_time_remaining (FocusSession.mk 60 true true 42 7)).
  reflexivity.
Defined.

(** ** What one update call does *)

(** C3, as the claim has it, fails: a paused timer ignores the call, so
    [last_update] stays at 0 when the update is made at time 5. *)
Lemma update_timer_paused_leaves_last_update :
  let s := FocusSession.mk 60 true true 60 0 in
  FocusSession.last_update (FocusSession.update_timer 5 s) == 0
  /\ ~ FocusSession.last_update (FocusSession.update_timer 5 s) == 5.
Proof.
  simpl. split; [reflexivity | intros H; discriminate H].
Qed.

(** C3, amended.  An update call moves [last_update] to the current time
    exactly when the timer is neither paused nor complete, and then charges
    the time since the previous [last_update] (clamping at 0); a paused or
    complete timer is left as it is, [last_update] included.  The resuming
    [toggle_pause()] is what brings [last_update] to the current time after
    a pause. *)
Theorem update_timer_last_update (now : timestamp) (s : FocusSession.t) (m : Music.t) :
  FocusSession.last_update (FocusSession.update_timer now s)
  = (if negb (FocusSession.is_paused s) && FocusSession.session_active s
     then now else FocusSession.last_update s)
  /\ FocusSession.time_remaining (FocusSession.update_timer now s)
     = (if negb (FocusSession.is_paused s) && FocusSession.session_active s
        then let r := FocusSession.time_remaining s - (now - FocusSession.last_update s) in
             if Qle_bool r 0 then 0 else r
        else FocusSession.time_remaining s)
  /\ FocusSession.last_update
       (snd (fst (FocusSession.toggle_pause now (FocusSession.set_is_paused true s) m)))
     = now.
Proof.
  unfold FocusSession.update_timer.
  destruct (negb (FocusSession.is_paused s) && FocusSession.session_active s); simpl.
  - destruct (Qle_bool _ 0); simpl; repeat split; reflexivity.
  - repeat split; reflexivity.
Qed.

(** ** Completion *)

Lemma step_inactive sm e :
  FocusSession.session_active (fst sm) = false ->
  FocusSession.time_remaining (fst sm) = 0 ->
  FocusSession.session_active (fst (Timeline.step sm e)) = false
  /\ FocusSession.time_remaining (fst (Timeline.step sm e)) = 0.
Proof.
  intros Ha Hr. destruct sm as [s m]. destruct e as [now|now]; simpl in *.
  - now rewrite update_timer_inactive.
  - unfold FocusSession.toggle_pause. simpl.
    destruct (negb (FocusSession.is_paused s)); simpl; auto.
Qed.

Lemma run_inactive es : forall sm,
  FocusSession.session_active (fst sm) = false ->
  FocusSession.time_remaining (fst sm) = 0 ->
  FocusSession.session_active (fst (Timeline.run sm es)) = false
  /\ FocusSession.time_remaining (fst (Timeline.run sm es)) = 0.
Proof.
  induction es as [|e es IH]; intros sm Ha Hr; simpl; [auto|].
  destruct (step_inactive sm e Ha Hr) as [Ha' Hr'].
  apply IH; assumption.
Qed.

(** C4. The update that brings [time_remaining] to 0 or below completes the
    timer and leaves exactly 0; from then on update calls change no field,
    and no sequence of update and toggle calls makes the timer active again
    or moves [time_remaining] off 0.  A running update completes the timer
    only in that case. *)
Theorem completion_is_terminal (now : timestamp) (s : FocusSession.t) :
  FocusSession.is_paused s = false ->
  FocusSession.session_active s = true ->
  let s' := FocusSession.update_timer now s in
  FocusSession.is_complete s'
  = Qle_bool (FocusSession.time_remaining s - (now - FocusSession.last_update s)) 0
  /\ (FocusSession.time_remaining s - (now - FocusSession.last_update s) <= 0 ->
      FocusSession.is_complete s' = true
      /\ FocusSession.time_remaining s' = 0
      /\ (forall nows, FocusSession.updates s' nows = s')
      /\ (forall m es,
            FocusSession.is_complete (fst (Timeline.run (s', m) es)) = true
            /\ FocusSession.time_remaining (fst (Timeline.run (s', m) es)) = 0)).
Proof.
  intros Hp Ha s'.
  assert (Hc : FocusSession.is_complete s'
               = Qle_bool (FocusSession.time_remaining s
                           - (now - FocusSession.last_update s)) 0).
  { unfold s', FocusSession.update_timer. rewrite Hp, Ha. simpl.
    destruct (Qle_bool _ 0); unfold FocusSession.is_complete; simpl;
      [reflexivity | now rewrite Ha]. }
  split; [exact Hc|].
  intros Hle.
  assert (Hb : Qle_bool (FocusSession.time_remaining s
                         - (now - FocusSession.last_update s)) 0 = true)
    by (apply Qle_bool_iff; exact Hle).
  assert (Hs' : FocusSession.session_active s' = false
                /\ FocusSession.time_remaining s' = 0).
  { unfold s', FocusSession.update_timer. rewrite Hp, Ha. simpl.
    rewrite Hb. simpl. split; reflexivity. }
  destruct Hs' as [Hia Hr0].
  repeat split.
  - rewrite Hc. exact Hb.
  - exact Hr0.
  - intros nows. apply updates_inactive. exact Hia.
  - unfold FocusSession.is_complete.
    destruct (run_inactive es (s', m) Hia Hr0) as [H1 _]. now rewrite H1.
  - destruct (run_inactive es (s', m) Hia Hr0) as [_ H2]. exact H2.
Qed.

Lemma completion_is_terminal_witness :
  let s := FocusSession.mk 60 false true 2 58 in
  let s' := FocusSession.update_timer 61 s in
  FocusSession.time_remaining s' = 0
  /\ FocusSession.updates s' [62; 63] = s'
  /\ FocusSession.time_remaining
       (fst (Timeline.run (s', Music.init)
               [Timeline.Toggle 70; Timeline.Update 71; Timeline.Toggle 80;
                Timeline.Update 90])) = 0.
Proof.
  pose proof (completion_is_terminal 61 (FocusSession.mk 60 false true 2 58)
                eq_refl eq_refl) as [_ H].
  assert (Hle : FocusSession.time_remaining (FocusSession.mk 60 false true 2 58)
                - (61 - FocusSession.last_update (FocusSession.mk 60 false true 2 58))
                <= 0) by (simpl; lra).
  destruct (H Hle) as (_ & H0 & Hu & Hr).
  split; [exact H0|]. split; [apply Hu|]. apply Hr.
Defined.

(** ** Additivity of the countdown *)

Section Additivity.

Import Timeline.

Lemma last_cons (a d : timestamp) (l : list timestamp) :
  last (a :: l) d = last l a.
Proof.
  revert a d. induction l as [|b l IH]; intros a d; [reflexivity|].
  change (last (a :: b :: l) d) with (last (b :: l) d).
  now rewrite !IH.
Qed.

Lemma nondecreasing_app a l1 l2 :
  nondecreasing a (l1 ++ l2) <->
  nondecreasing a l1 /\ nondecreasing (last l1 a) l2.
Proof.
  revert a. induction l1 as [|b l1 IH]; intros a.
  - simpl. tauto.
  - rewrite last_cons. simpl. rewrite IH. tauto.
Qed.

Lemma nondecreasing_last a l : nondecreasing a l -> a <= last l a.
Proof.
  revert a. induction l as [|b l IH]; intros a H.
  - simpl. lra.
  - rewrite last_cons. destruct H as [H1 H2]. specialize (IH b H2). lra.
Qed.

Lemma map_at_update ups : map at_ (map Update ups) = ups.
Proof.
  induction ups as [|u ups IH]; simpl; [reflexivity | now rewrite IH].
Qed.

Lemma run_app sm es1 es2 : run sm (es1 ++ es2) = run (run sm es1) es2.
Proof. unfold run. apply fold_left_app. Qed.

Variable D : Q.

Lemma accounted_compat c c' lu lu' s :
  c == c' -> lu == lu' -> accounted D c lu s -> accounted D c' lu' s.
Proof.
  unfold accounted. intros Hc Hl.
  destruct (FocusSession.session_active s); intros H.
  - destruct H as (H1 & H2 & H3). repeat split; lra.
  - destruct H as (H1 & H2). split; lra.
Qed.

Lemma accounted_time_remaining c lu s :
  accounted D c lu s -> FocusSession.time_remaining s == Qmax 0 (D - c).
Proof.
  unfold accounted. destruct (FocusSession.session_active s); intros H.
  - destruct H as (_ & H2 & H3). rewrite (Q.max_r _ _ H3). exact H2.
  - destruct H as (H1 & H2). rewrite (Q.max_l _ _ H2). exact H1.
Qed.

Lemma update_timer_accounted now c lu s :
  FocusSession.is_paused s = false ->
  accounted D c lu s -> lu <= now ->
  accounted D (c + (now - lu)) now (FocusSession.update_timer now s)
  /\ FocusSession.is_paused (FocusSession.update_timer now s) = false.
Proof.
  intros Hp Hacc Hle. unfold accounted in Hacc.
  unfold FocusSession.update_timer. rewrite Hp.
  destruct (FocusSession.session_active s) eqn:Ha; simpl.
  - destruct Hacc as (H1 & H2 & H3).
    destruct (Qle_bool _ 0) eqn:Hb; unfold accounted; simpl.
    + apply Qle_bool_iff in Hb. split; [|exact Hp]. split; [reflexivity | lra].
    + rewrite Ha. split; [|exact Hp].
      assert (Hn : ~ FocusSession.time_remaining s
                     - (now - FocusSession.last_update s) <= 0).
      { intros Hc. apply Qle_bool_iff in Hc. congruence. }
      repeat split; lra.
  - split; [|exact Hp]. unfold accounted. rewrite Ha.
    destruct Hacc as (H1 & H2). split; lra.
Qed.

Lemma updates_accounted m ups : forall c lu s,
  FocusSession.is_paused s = false ->
  accounted D c lu s -> nondecreasing lu ups ->
  let sm := run (s, m) (map Update ups) in
  accounted D (c + (last ups lu - lu)) (last ups lu) (fst sm)
  /\ FocusSession.is_paused (fst sm) = false
  /\ snd sm = m.
Proof.
  induction ups as [|u ups IH]; intros c lu s Hp Hacc Hnd.
  - simpl. repeat split; auto.
    apply (accounted_compat c _ lu _ s); try lra. exact Hacc.
  - destruct Hnd as [Hle Hnd].
    destruct (update_timer_accounted u c lu s Hp Hacc Hle) as [Hacc' Hp'].
    destruct (IH _ _ _ Hp' Hacc' Hnd) as (H1 & H2 & H3).
    rewrite last_cons. simpl. repeat split; auto.
    eapply accounted_compat; [| |exact H1]; lra.
Qed.

Lemma updates_while_paused m ups : forall s,
  FocusSession.is_paused s = true ->
  run (s, m) (map Update ups) = (s, m).
Proof.
  induction ups as [|u ups IH]; intros s Hp; simpl; [reflexivity|].
  rewrite update_timer_paused by exact Hp. apply IH. exact Hp.
Qed.

Lemma toggle_running now s m :
  FocusSession.is_paused s = false ->
  step (s, m) (Toggle now)
  = (FocusSession.set_is_paused true s, AudioPlayer.pause m).
Proof.
  intros Hp. simpl. unfold FocusSession.toggle_pause. simpl.
  rewrite Hp. reflexivity.
Qed.

Lemma toggle_paused now s m :
  FocusSession.is_paused s = true ->
  step (s, m) (Toggle now)
  = (FocusSession.set_last_update now (FocusSession.set_is_paused false s),
     AudioPlayer.unpause m).
Proof.
  intros Hp. simpl. unfold FocusSession.toggle_pause. simpl.
  rewrite Hp. reflexivity.
Qed.

Lemma pause_run m p s :
  FocusSession.is_paused s = false ->
  run (s, m) (Toggle (paused_at p) :: map Update (idle p)
              ++ [Toggle (resumed_at p)])
  = (FocusSession.set_last_update (resumed_at p) s,
     AudioPlayer.unpause (AudioPlayer.pause m)).
Proof.
  intros Hp.
  change (run (s, m) (Toggle (paused_at p) :: map Update (idle p)
                      ++ [Toggle (resumed_at p)]))
    with (run (step (s, m) (Toggle (paused_at p)))
              (map Update (idle p) ++ [Toggle (resumed_at p)])).
  rewrite toggle_running by exact Hp.
  rewrite run_app, updates_while_paused by reflexivity.
  change (run ?sm [?e]) with (step sm e).
  rewrite toggle_paused by reflexivity.
  unfold FocusSession.set_last_update, FocusSession.set_is_paused. simpl.
  now rewrite <- Hp.
Qed.

(** A whole pause: nothing is charged from the pause keypress to the
    resume keypress, and charging starts afresh at the resume. *)
Lemma pause_accounted m p c lu s :
  FocusSession.is_paused s = false ->
  accounted D c lu s ->
  let sm := run (s, m) (Toggle (paused_at p) :: map Update (idle p)
                        ++ [Toggle (resumed_at p)]) in
  accounted D c (resumed_at p) (fst sm)
  /\ FocusSession.is_paused (fst sm) = false.
Proof.
  intros Hp Hacc. cbn zeta. rewrite pause_run by exact Hp.
  simpl. split; [|exact Hp].
  unfold accounted in *. simpl.
  destruct (FocusSession.session_active s).
  - destruct Hacc as (H1 & H2 & H3). repeat split; auto; lra.
  - exact Hacc.
Qed.

Lemma pause_events_split p rest :
  pause_events p ++ rest
  = pause_prefix p ++ (map Update (running p) ++ rest).
Proof.
  unfold pause_events, pause_prefix. simpl. f_equal.
  rewrite <- !app_assoc. reflexivity.
Qed.

Lemma pause_prefix_times p :
  map at_ (pause_prefix p) = (paused_at p :: idle p) ++ [resumed_at p].
Proof.
  unfold pause_prefix. simpl. now rewrite map_app, map_at_update.
Qed.

Lemma history_accounted ps : forall from ups c s m,
  FocusSession.is_paused s = false ->
  accounted D c from s ->
  nondecreasing from (map at_ (map Update ups ++ flat_map pause_events ps)) ->
  exists lu,
    accounted D
      (c + (running_wall_clock from ups ps - before_pause from ups ps)) lu
      (fst (run (s, m) (map Update ups ++ flat_map pause_events ps))).
Proof.
  induction ps as [|p ps IH]; intros from ups c s m Hp Hacc Hnd.
  - simpl in *. rewrite app_nil_r in *. rewrite map_at_update in Hnd.
    destruct (updates_accounted m ups c from s Hp Hacc Hnd) as (H1 & _ & _).
    exists (last ups from).
    eapply accounted_compat; [| |exact H1]; lra.
  - cbn [flat_map] in Hnd |- *.
    rewrite pause_events_split in Hnd. rewrite pause_events_split.
    rewrite map_app, map_at_update in Hnd.
    apply nondecreasing_app in Hnd. destruct Hnd as [Hnd1 Hnd2].
    rewrite map_app, pause_prefix_times in Hnd2.
    apply nondecreasing_app in Hnd2. destruct Hnd2 as [_ Hnd3].
    rewrite last_last in Hnd3.
    destruct (updates_accounted m ups c from s Hp Hacc Hnd1) as (H1 & H2 & H3).
    do 2 rewrite run_app.
    destruct (run (s, m) (map Update ups)) as [s1 m1] eqn:E1.
    simpl in H1, H2, H3. subst m1.
    destruct (pause_accounted m p _ _ s1 H2 H1) as [H4 H5].
    cbn zeta in H4, H5. fold (pause_prefix p) in H4, H5.
    destruct (run (s1, m) (pause_prefix p)) as [s2 m2] eqn:E2.
    simpl in H4, H5.
    destruct (IH (resumed_at p) (running p) _ s2 m2 H5 H4 Hnd3) as [lu Hlu].
    exists lu.
    eapply accounted_compat; [| |exact Hlu]; simpl; lra.
Qed.

Lemma init_accounted (duration_minutes : Q) t0 :
  D = duration_minutes * 60 -> 0 <= duration_minutes ->
  accounted D 0 t0 (FocusSession.init duration_minutes t0).
Proof.
  intros -> Hd. unfold accounted. simpl. repeat split; lra.
Qed.

End Additivity.

Lemma last_app_default (l1 l2 : list timestamp) (d : timestamp) :
  last (l1 ++ l2) d = last l2 (last l1 d).
Proof.
  revert d. induction l1 as [|a l1 IH]; intros d; [reflexivity|].
  change ((a :: l1) ++ l2) with (a :: (l1 ++ l2)).
  now rewrite !last_cons, IH.
Qed.

(** All wall-clock time of a history is running time or paused time. *)
Lemma wall_clock_split ps : forall from ups,
  Timeline.running_wall_clock from ups ps + Timeline.paused_time ps
  == last (ups ++ map Timeline.at_ (flat_map Timeline.pause_events ps)) from - from.
Proof.
  induction ps as [|p ps IH]; intros from ups.
  - simpl. rewrite app_nil_r. lra.
  - cbn [flat_map]. rewrite pause_events_split, map_app, pause_prefix_times.
    rewrite map_app, map_at_update.
    rewrite app_assoc, last_app_default.
    rewrite (app_assoc ups), last_last.
    specialize (IH (Timeline.resumed_at p) (Timeline.running p)).
    cbn [Timeline.running_wall_clock Timeline.paused_time fold_right].
    fold (Timeline.paused_time ps). lra.
Qed.


(** Histories are all there is: any sequence of update and toggle calls in
    which the toggles pair up is the sequence of calls of a history. *)
Lemma events_snoc_update h u :
  exists h', Timeline.events h' = Timeline.events h ++ [Timeline.Update u].
Proof.
  destruct h as [fr ps]. induction ps as [|p ps _] using rev_ind.
  - exists (Timeline.mk_history (fr ++ [u]) []).
    unfold Timeline.events. simpl. now rewrite !app_nil_r, map_app.
  - exists (Timeline.mk_history fr
              (ps ++ [Timeline.mk_pause (Timeline.paused_at p) (Timeline.idle p)
                        (Timeline.resumed_at p) (Timeline.running p ++ [u])])).
    unfold Timeline.events. simpl.
    rewrite !flat_map_app. simpl. rewrite !app_nil_r.
    unfold Timeline.pause_events. simpl.
    rewrite map_app. simpl.
    rewrite <- !app_assoc. simpl. rewrite <- !app_assoc. reflexivity.
Qed.

Lemma toggles_snoc es e :
  Timeline.toggles (es ++ [e])
  = (Timeline.toggles es
     + match e with Timeline.Toggle _ => 1 | Timeline.Update _ => 0 end)%nat.
Proof.
  unfold Timeline.toggles. rewrite filter_app, length_app.
  destruct e; reflexivity.
Qed.

Lemma paired_interleavings_are_histories es :
  (Nat.even (Timeline.toggles es) = true ->
   exists h, Timeline.events h = es)
  /\ (Nat.even (Timeline.toggles es) = false ->
      exists h p idle,
        Timeline.events h ++ Timeline.Toggle p :: map Timeline.Update idle = es).
Proof.
  induction es as [|e es [IHe IHo]] using rev_ind.
  - split; [|discriminate]. intros _. exists (Timeline.mk_history [] []). reflexivity.
  - rewrite toggles_snoc. destruct e as [u|t].
    + rewrite Nat.add_0_r. split; intros Hp.
      * destruct (IHe Hp) as [h Hh]. destruct (events_snoc_update h u) as [h' Hh'].
        exists h'. now rewrite Hh', Hh.
      * destruct (IHo Hp) as (h & p & idle & Hh).
        exists h, p, (idle ++ [u]). rewrite map_app. simpl.
        rewrite <- Hh. rewrite <- app_assoc. reflexivity.
    + rewrite Nat.add_1_r, Nat.even_succ, <- Nat.negb_even. split; intros Hp.
      * apply negb_true_iff in Hp.
        destruct (IHo Hp) as (h & p & idle & Hh).
        exists (Timeline.mk_history (Timeline.first_running h)
                  (Timeline.pauses h ++ [Timeline.mk_pause p idle t []])).
        unfold Timeline.events in *. simpl.
        rewrite flat_map_app. simpl. rewrite app_nil_r.
        rewrite <- Hh. rewrite <- !app_assoc. simpl.
        rewrite <- ?app_assoc. reflexivity.
      * apply negb_false_iff in Hp.
        destruct (IHe Hp) as [h Hh]. exists h, t, []. simpl. now rewrite Hh.
Qed.

Lemma run_history_time_remaining (duration_minutes : Q) (t0 : timestamp)
    (h : Timeline.history) (m : Music.t) :
  0 <= duration_minutes ->
  Timeline.chronological t0 h ->
  FocusSession.time_remaining
    (fst (Timeline.run (FocusSession.init duration_minutes t0, m) (Timeline.events h)))
  == Qmax 0 (duration_minutes * 60
             - (Timeline.running_wall_clock t0 (Timeline.first_running h) (Timeline.pauses h)
                - Timeline.before_pause t0 (Timeline.first_running h) (Timeline.pauses h))).
Proof.
  intros Hd Hch.
  destruct (history_accounted (duration_minutes * 60) (Timeline.pauses h)
              t0 (Timeline.first_running h) 0
              (FocusSession.init duration_minutes t0) m eq_refl
              (init_accounted _ duration_minutes t0 eq_refl Hd) Hch)
    as [lu Hlu].
  rewrite (accounted_time_remaining _ _ _ _ Hlu).
  apply Q.max_compat; [reflexivity | lra].
Qed.

(** C1. A timer created with [duration_minutes * 60 = D] seconds at [t0],
    driven by any chronological interleaving of update calls and
    pause/resume pairs, ends with [time_remaining = max(0, D - T)], where [T]
    is the wall-clock time spent running less the time between the last
    update of a running interval and the pause keypress that ends it.  [T]
    depends on the update calls of a running interval only through the last
    of them, so how finely they split the interval does not matter; paused
    time is no part of it: running time is all the time from creation to the
    last call less the time spent paused. *)
Theorem time_remaining_is_running_time (duration_minutes : Q) (t0 : timestamp)
    (h : Timeline.history) (m : Music.t) :
  0 <= duration_minutes ->
  Timeline.chronological t0 h ->
  let D := duration_minutes * 60 in
  let s := fst (Timeline.run (FocusSession.init duration_minutes t0, m)
                             (Timeline.events h)) in
  let running :=
    Timeline.running_wall_clock t0 (Timeline.first_running h) (Timeline.pauses h) in
  let unseen :=
    Timeline.before_pause t0 (Timeline.first_running h) (Timeline.pauses h) in
  FocusSession.time_remaining s == Qmax 0 (D - (running - unseen))
  /\ running == (Timeline.finish t0 h - t0) - Timeline.paused_time (Timeline.pauses h).
Proof.
  intros Hd Hch. cbn zeta. split.
  - apply run_history_time_remaining; assumption.
  - pose proof (wall_clock_split (Timeline.pauses h) t0 (Timeline.first_running h)) as H.
    unfold Timeline.finish, Timeline.events.
    rewrite map_app, map_at_update. lra.
Qed.

Lemma time_remaining_is_running_time_witness :
  let h := Timeline.mk_history [1; 3; 5]
             [Timeline.mk_pause 6 [8; 12] 16 [18; 21]] in
  0 <= 21
  /\ Timeline.chronological 0 h
  /\ FocusSession.time_remaining
       (fst (Timeline.run (FocusSession.init 21 0, Music.init) (Timeline.events h)))
     == Qmax 0 (21 * 60 - (((6 - 0) + (21 - 16)) - ((6 - 5) + 0))).
Proof.
  assert (Hd : 0 <= 21) by lra.
  assert (Hch : Timeline.chronological 0
                  (Timeline.mk_history [1; 3; 5]
                     [Timeline.mk_pause 6 [8; 12] 16 [18; 21]])).
  { unfold Timeline.chronological. simpl. repeat split; lra. }
  split; [exact Hd|]. split; [exact Hch|].
  exact (proj1 (time_remaining_is_running_time 21 0
                  (Timeline.mk_history [1; 3; 5]
                     [Timeline.mk_pause 6 [8; 12] 16 [18; 21]])
                  Music.init Hd Hch)).
Defined.

(** The same history by the numbers: 11 seconds of running, of which the
    second before the pause keypress goes uncharged; 10 seconds paused. *)
Example pause_gap_is_not_charged :
  let h := Timeline.mk_history [1; 3; 5]
             [Timeline.mk_pause 6 [8; 12] 16 [18; 21]] in
  FocusSession.time_remaining
    (fst (Timeline.run (FocusSession.init 21 0, Music.init) (Timeline.events h)))
  == 21 * 60 - 10
  /\ Timeline.running_wall_clock 0 (Timeline.first_running h) (Timeline.pauses h) == 11
  /\ Timeline.paused_time (Timeline.pauses h) == 10.
Proof.
  simpl. repeat split; reflexivity.
Qed.

(** Any two ways of splitting one running interval into update calls that
    end at the same reading leave the same [time_remaining]. *)
Corollary update_granularity_is_irrelevant (duration_minutes : Q)
    (t0 : timestamp) (ups ups' : list timestamp) (m : Music.t) :
  0 <= duration_minutes ->
  Timeline.nondecreasing t0 ups -> Timeline.nondecreasing t0 ups' ->
  last ups t0 == last ups' t0 ->
  FocusSession.time_remaining
    (FocusSession.updates (FocusSession.init duration_minutes t0) ups)
  == FocusSession.time_remaining
       (FocusSession.updates (FocusSession.init duration_minutes t0) ups').
Proof.
  intros Hd H1 H2 Hl.
  assert (Hrun : forall us s, FocusSession.updates s us
                 = fst (Timeline.run (s, m) (map Timeline.Update us))).
  { induction us as [|u us IH]; intros s; [reflexivity|]. simpl. apply IH. }
  rewrite !Hrun.
  pose proof (run_history_time_remaining duration_minutes t0
                (Timeline.mk_history ups []) m Hd) as E1.
  pose proof (run_history_time_remaining duration_minutes t0
                (Timeline.mk_history ups' []) m Hd) as E2.
  unfold Timeline.chronological, Timeline.events in E1, E2. simpl in E1, E2.
  rewrite app_nil_r, map_at_update in E1, E2.
  rewrite (E1 H1), (E2 H2).
  apply Q.max_compat; [reflexivity | lra].
Qed.

(** ** Muting *)

Lemma toggle_mute_unmuted a m :
  AudioPlayer.is_muted a = false ->
  AudioPlayer.toggle_mute a m
  = (true, AudioPlayer.mk true (Music.volume m), Music.set_volume 0 m).
Proof.
  intros H. unfold AudioPlayer.toggle_mute. rewrite H. reflexivity.
Qed.

Lemma toggle_mute_muted a m :
  AudioPlayer.is_muted a = true ->
  AudioPlayer.toggle_mute a m
  = (false, AudioPlayer.mk false (AudioPlayer.saved_volume a),
     Music.set_volume (AudioPlayer.saved_volume a) m).
Proof.
  intros H. unfold AudioPlayer.toggle_mute. rewrite H. reflexivity.
Qed.

(** The program keeps a muted player's mixer silent: so it is at start-up,
    and no method of the player breaks it. *)
Lemma silenced_when_muted_init :
  AudioPlayer.silenced_when_muted (fst AudioPlayer.init) (snd AudioPlayer.init).
Proof. intros H. discriminate H. Qed.

Lemma silenced_when_muted_toggle a m :
  let '(_, a', m') := AudioPlayer.toggle_mute a m in
  AudioPlayer.silenced_when_muted a' m'.
Proof.
  destruct (AudioPlayer.is_muted a) eqn:H.
  - rewrite toggle_mute_muted by exact H. intros H'. discriminate H'.
  - rewrite toggle_mute_unmuted by exact H. intros _. reflexivity.
Qed.

Lemma silenced_when_muted_playback a m file loop :
  AudioPlayer.silenced_when_muted a m ->
  AudioPlayer.silenced_when_muted a (AudioPlayer.play file loop m)
  /\ AudioPlayer.silenced_when_muted a (AudioPlayer.stop m)
  /\ AudioPlayer.silenced_when_muted a (AudioPlayer.pause m)
  /\ AudioPlayer.silenced_when_muted a (AudioPlayer.unpause m).
Proof.
  intros H. repeat split; intros Hm; apply (H Hm).
Qed.

(** C5, as the claim has it, fails: a player flagged muted over a mixer at
    volume 1/2 comes out of two toggles at volume 0. *)
Lemma toggle_mute_twice_loses_volume :
  let a := AudioPlayer.mk true 1 in
  let m := Music.mk None 0 false false (1 # 2) in
  Music.volume (snd (AudioPlayer.toggle_mute_twice a m)) == 0
  /\ ~ Music.volume (snd (AudioPlayer.toggle_mute_twice a m)) == Music.volume m.
Proof.
  simpl. split; [reflexivity | intros H; discriminate H].
Qed.

(** C5, amended.  From every state in which a muted player's mixer is at
    volume 0 (all states the program reaches, and every unmuted state),
    two toggles in succession restore the volume and the muted flag.  One
    toggle from the unmuted state records the volume, sets it to 0 and
    returns true; one toggle from the muted state sets the recorded volume
    and returns false. *)
Theorem toggle_mute_twice_restores_volume (a : AudioPlayer.t) (m : Music.t) :
  AudioPlayer.silenced_when_muted a m ->
  Music.volume (snd (AudioPlayer.toggle_mute_twice a m)) == Music.volume m
  /\ AudioPlayer.is_muted (fst (AudioPlayer.toggle_mute_twice a m))
     = AudioPlayer.is_muted a
  /\ AudioPlayer.toggle_mute (AudioPlayer.mk false (AudioPlayer.saved_volume a)) m
     = (true, AudioPlayer.mk true (Music.volume m), Music.set_volume 0 m)
  /\ AudioPlayer.toggle_mute (AudioPlayer.mk true (AudioPlayer.saved_volume a)) m
     = (false, AudioPlayer.mk false (AudioPlayer.saved_volume a),
        Music.set_volume (AudioPlayer.saved_volume a) m).
Proof.
  intros Hinv. unfold AudioPlayer.toggle_mute_twice.
  destruct (AudioPlayer.is_muted a) eqn:H.
  - rewrite (toggle_mute_muted a m H).
    rewrite toggle_mute_unmuted by reflexivity. simpl.
    split; [|repeat split]. symmetry. apply Hinv. exact H.
  - rewrite (toggle_mute_unmuted a m H).
    rewrite toggle_mute_muted by reflexivity. simpl.
    split; [|repeat split]. reflexivity.
Qed.

Lemma toggle_mute_twice_restores_volume_witness :
  let a := AudioPlayer.mk false 1 in
  let m := Music.mk (Some "rain.mp3") (-1) true false (7 # 10) in
  AudioPlayer.silenced_when_muted a m
  /\ Music.volume (snd (AudioPlayer.toggle_mute_twice a m)) == 7 # 10.
Proof.
  assert (H : AudioPlayer.silenced_when_muted (AudioPlayer.mk false 1)
                (Music.mk (Some "rain.mp3") (-1) true false (7 # 10)))
    by (intros H; discriminate H).
  split; [exact H|].
  exact (proj1 (toggle_mute_twice_restores_volume _ _ H)).
Defined.

(** C10. A toggle of the mute touches the player's two attributes and the
    mixer's volume: the track, its looping, and the playing and paused status
    are as before.  The session is no argument of it, and in the focus loop
    an iteration that reads "m" leaves the session exactly as an iteration
    that reads no key. *)
Theorem toggle_mute_frame (a : AudioPlayer.t) (m : Music.t)
    (tt tu : timestamp) (w : Main.state) :
  (let m' := snd (AudioPlayer.toggle_mute a m) in
   Music.track m' = Music.track m /\ Music.loops m' = Music.loops m
   /\ Music.playing m' = Music.playing m /\ Music.paused m' = Music.paused m
   /\ Music.get_busy m' = Music.get_busy m)
  /\ (let w' := fst (Main.tick (Main.mk_tick (Some "m") tt tu) w) in
      Main.session w'
      = Main.session (fst (Main.tick (Main.mk_tick None tt tu) w))
      /\ Main.session w' = FocusSession.update_timer tu (Main.session w)
      /\ Music.playing (Main.music w') = Music.playing (Main.music w)
      /\ Music.paused (Main.music w') = Music.paused (Main.music w)
      /\ snd (Main.tick (Main.mk_tick (Some "m") tt tu) w) = Main.Continue).
Proof.
  split.
  - unfold AudioPlayer.toggle_mute.
    destruct (AudioPlayer.is_muted a); simpl; repeat split; reflexivity.
  - unfold Main.tick. simpl.
    unfold AudioPlayer.toggle_mute.
    destruct (AudioPlayer.is_muted (Main.audio_player w)); simpl;
      repeat split; reflexivity.
Qed.

(** ** The keyboard *)

(** C6: what [get_key] does with the escape sequences of special keys.
    On win32 the two bytes of a special key are swallowed and the poll
    reports no input (a lone byte above 127 decodes to the empty string,
    which is returned).  Elsewhere the first character of whatever waits at
    the descriptor is returned, so the poll that meets the up arrow
    (ESC [ A) returns ESC instead of reporting no input; the rest of the
    sequence stays in the stream's buffer, and the next polls, with nothing
    new at the descriptor, report no input. *)
Theorem get_key_posix_passes_escape_sequences (unicode_lower : KeyboardInput.uchar -> string) :
  KeyboardInput.get_key unicode_lower KeyboardInput.Win32
    (KeyboardInput.mk_input [ascii_of_nat 224; "H"%char] [] [])
  = (None, KeyboardInput.mk_input [] [] [])
  /\ KeyboardInput.get_keys unicode_lower KeyboardInput.Win32 2
       (KeyboardInput.mk_input [ascii_of_nat 195; ascii_of_nat 169] [] [])
     = [Some EmptyString; Some EmptyString]
  /\ (forall con c rest,
        KeyboardInput.get_key unicode_lower KeyboardInput.Posix
          (KeyboardInput.mk_input con [] (c :: rest))
        = (Some (KeyboardInput.lower_uchar unicode_lower c),
           KeyboardInput.mk_input con rest []))
  /\ KeyboardInput.get_key unicode_lower KeyboardInput.Posix
       (KeyboardInput.mk_input [] [] [KeyboardInput.esc_key; "["; "A"])
     = (Some KeyboardInput.esc_key, KeyboardInput.mk_input [] ["["; "A"] [])
  /\ KeyboardInput.get_keys unicode_lower KeyboardInput.Posix 3
       (KeyboardInput.mk_input [] [] [KeyboardInput.esc_key; "["; "A"])
     = [Some KeyboardInput.esc_key; None; None].
Proof.
  repeat split; reflexivity.
Qed.

(** An ordinary ASCII key that a poll reads is returned lowercased on
    either platform. *)
Lemma get_key_ordinary unicode_lower (c : ascii) con b rest :
  (nat_of_ascii c < 128)%nat -> (nat_of_ascii c <> 0)%nat ->
  KeyboardInput.get_key unicode_lower KeyboardInput.Win32
    (KeyboardInput.mk_input (c :: con) b rest)
  = (Some (String (KeyboardInput.lower_char c) EmptyString),
     KeyboardInput.mk_input con b rest)
  /\ KeyboardInput.get_key unicode_lower KeyboardInput.Posix
       (KeyboardInput.mk_input con [] (String c EmptyString :: rest))
     = (Some (String (KeyboardInput.lower_char c) EmptyString),
        KeyboardInput.mk_input con rest []).
Proof.
  intros Hlt Hnz. split.
  - unfold KeyboardInput.get_key, KeyboardInput.is_special,
      KeyboardInput.decode_ignore1.
    cbn [KeyboardInput.is_win32 KeyboardInput.console KeyboardInput.buffered
         KeyboardInput.fd].
    destruct (Nat.eqb_spec (nat_of_ascii c) 0) as [E|_]; [contradiction|].
    destruct (Nat.eqb_spec (nat_of_ascii c) 224) as [E|_]; [lia|].
    destruct (Nat.ltb_spec (nat_of_ascii c) 128) as [_|E]; [reflexivity | lia].
  - unfold KeyboardInput.get_key, KeyboardInput.read1, KeyboardInput.lower_uchar.
    cbn [KeyboardInput.is_win32 KeyboardInput.console KeyboardInput.buffered
         KeyboardInput.fd].
    destruct (Nat.ltb_spec (nat_of_ascii c) 128) as [_|E]; [reflexivity | lia].
Qed.

(** ** The raw-mode scope *)

Lemma exit_unset p kb term :
  KeyboardInput.old_settings kb = None -> KeyboardInput.exit p kb term = term.
Proof.
  intros H. unfold KeyboardInput.exit. rewrite H. simpl.
  now rewrite andb_false_r.
Qed.

Lemma enter_captures raw p kb term :
  KeyboardInput.old_settings kb = None ->
  let '(r, kb', term') := KeyboardInput.enter raw p kb term in
  match KeyboardInput.old_settings kb' with
  | Some a => a = KeyboardInput.attrs term /\ r = Ok tt /\ p = KeyboardInput.Posix
  | None => term' = term
  end.
Proof.
  intros H. unfold KeyboardInput.enter.
  destruct p; simpl.
  - rewrite H. reflexivity.
  - destruct (KeyboardInput.is_tty term); simpl.
    + repeat split.
    + rewrite H. reflexivity.
Qed.

(** C9. Leaving the scope never writes terminal settings that were not
    read before: with [old_settings] unset, [__exit__] leaves the terminal
    as it is; with settings captured, it writes exactly those.  When
    [__enter__] fails on [tcgetattr], nothing was captured and nothing is
    written; when it succeeds, the settings that were in force before the
    scope are in force after it, whatever way the body was left and
    whatever the body did to the terminal. *)
Theorem no_restore_without_acquire {R : Type}
    (raw_mode : KeyboardInput.termios_attr -> KeyboardInput.termios_attr)
    (term : KeyboardInput.Terminal)
    (body : KeyboardInput.t -> KeyboardInput.Terminal -> R * KeyboardInput.Terminal) :
  (forall p kb t,
     KeyboardInput.old_settings kb = None -> KeyboardInput.exit p kb t = t)
  /\ (forall a t,
        let t' := KeyboardInput.exit KeyboardInput.Posix (KeyboardInput.mk (Some a)) t in
        KeyboardInput.attrs t' = a
        /\ KeyboardInput.restores t' = a :: KeyboardInput.restores t)
  /\ (KeyboardInput.is_tty term = false ->
      KeyboardInput.with_ raw_mode KeyboardInput.Posix term body
      = (Raise "termios.error", KeyboardInput.init, term))
  /\ (KeyboardInput.is_tty term = true ->
      let inside := KeyboardInput.setraw raw_mode term in
      let kb := KeyboardInput.mk (Some (KeyboardInput.attrs term)) in
      let '(r, kb', term') :=
        KeyboardInput.with_ raw_mode KeyboardInput.Posix term body in
      r = Ok (fst (body kb inside))
      /\ KeyboardInput.old_settings kb' = Some (KeyboardInput.attrs term)
      /\ KeyboardInput.attrs term' = KeyboardInput.attrs term
      /\ KeyboardInput.restores term'
         = KeyboardInput.attrs term
           :: KeyboardInput.restores (snd (body kb inside))).
Proof.
  split; [intros p kb t H; apply exit_unset; exact H|].
  split; [intros a t; simpl; split; reflexivity|].
  split; intros Htty.
  - unfold KeyboardInput.with_, KeyboardInput.enter. simpl.
    rewrite Htty. reflexivity.
  - unfold KeyboardInput.with_, KeyboardInput.enter. simpl.
    rewrite Htty.
    destruct (body _ _) as [r t] eqn:E. simpl.
    repeat split.
Qed.

Lemma no_restore_without_acquire_witness :
  let cooked := KeyboardInput.mk_attr 1280 5 191 35387 15 15 [3; 28; 127]%Z in
  let raw (a : KeyboardInput.termios_attr) :=
    KeyboardInput.mk_attr 0 4 191 35376 15 15 [3; 28; 127]%Z in
  let tty := KeyboardInput.mk_term true cooked [] in
  let pipe := KeyboardInput.mk_term false cooked [] in
  let body (kb : KeyboardInput.t) (t : KeyboardInput.Terminal) := (7%nat, t) in
  KeyboardInput.restores
    (snd (KeyboardInput.with_ raw KeyboardInput.Posix pipe body)) = []
  /\ KeyboardInput.attrs
       (snd (KeyboardInput.with_ raw KeyboardInput.Posix tty body)) = cooked.
Proof.
  cbv zeta.
  pose proof (@no_restore_without_acquire nat
                (fun _ => KeyboardInput.mk_attr 0 4 191 35376 15 15 [3; 28; 127]%Z)
                (KeyboardInput.mk_term false
                   (KeyboardInput.mk_attr 1280 5 191 35387 15 15 [3; 28; 127]%Z) [])
                (fun _ t => (7%nat, t))) as (_ & _ & Hfail & _).
  pose proof (@no_restore_without_acquire nat
                (fun _ => KeyboardInput.mk_attr 0 4 191 35376 15 15 [3; 28; 127]%Z)
                (KeyboardInput.mk_term true
                   (KeyboardInput.mk_attr 1280 5 191 35387 15 15 [3; 28; 127]%Z) [])
                (fun _ t => (7%nat, t))) as (_ & _ & _ & Hok).
  split.
  - rewrite (Hfail eq_refl). reflexivity.
  - specialize (Hok eq_refl). cbv zeta in Hok.
    destruct (KeyboardInput.with_ _ _ _ _) as [[r kb'] term'].
    destruct Hok as (_ & _ & H & _). exact H.
Defined.

(** On win32 the scope neither reads nor writes terminal settings. *)
Lemma with_win32 {R : Type} raw term
    (body : KeyboardInput.t -> KeyboardInput.Terminal -> R * KeyboardInput.Terminal) :
  KeyboardInput.with_ raw KeyboardInput.Win32 term body
  = (Ok (fst (body KeyboardInput.init term)), KeyboardInput.init,
     snd (body KeyboardInput.init term)).
Proof.
  unfold KeyboardInput.with_, KeyboardInput.enter. simpl.
  destruct (body _ _) as [r t]. reflexivity.
Qed.

(** ** Quitting the focus loop *)

Lemma update_timer_live now s :
  (FocusSession.session_active s = true -> 0 < FocusSession.time_remaining s) ->
  FocusSession.session_active (FocusSession.update_timer now s) = true ->
  0 < FocusSession.time_remaining (FocusSession.update_timer now s).
Proof.
  intros Hl. unfold FocusSession.update_timer.
  destruct (negb (FocusSession.is_paused s) && FocusSession.session_active s) eqn:G;
    [|exact Hl].
  simpl. destruct (Qle_bool _ 0) eqn:Hb; simpl; [discriminate|].
  intros _.
  destruct (Qlt_le_dec 0 (FocusSession.time_remaining s
                          - (now - FocusSession.last_update s))) as [H|H];
    [exact H|].
  apply Qle_bool_iff in H. congruence.
Qed.

Lemma refresh_live tk w : Main.live w -> Main.live (fst (Main.refresh tk w)).
Proof.
  unfold Main.live. simpl. intros Hl. apply update_timer_live. exact Hl.
Qed.

Lemma tick_live tk w : Main.live w -> Main.live (fst (Main.tick tk w)).
Proof.
  intros Hl. unfold Main.tick.
  destruct (key_is (Main.key tk) " ").
  - unfold FocusSession.toggle_pause. simpl.
    destruct (negb (FocusSession.is_paused (Main.session w)));
      apply refresh_live; exact Hl.
  - destruct (key_is (Main.key tk) "m").
    + destruct (AudioPlayer.toggle_mute _ _) as [[b a] m].
      apply refresh_live. exact Hl.
    + destruct (key_is (Main.key tk) "q").
      * unfold Main.live. simpl. discriminate.
      * apply refresh_live. exact Hl.
Qed.

Lemma loop_live ticks : forall w,
  Main.live w -> Main.live (fst (Main.loop w ticks)).
Proof.
  induction ticks as [|tk ticks IH]; intros w Hl; simpl.
  - destruct (FocusSession.is_complete _); exact Hl.
  - destruct (FocusSession.is_complete _); [exact Hl|].
    pose proof (tick_live tk w Hl) as Hl'.
    destruct (Main.tick tk w) as [w' [|]]; simpl in Hl'; [apply IH|]; exact Hl'.
Qed.

Lemma loop_running_active ticks : forall w,
  snd (Main.loop w ticks) = Main.Running ->
  FocusSession.session_active (Main.session (fst (Main.loop w ticks))) = true.
Proof.
  induction ticks as [|tk ticks IH]; intros w; simpl.
  - unfold FocusSession.is_complete.
    destruct (FocusSession.session_active (Main.session w)) eqn:E; simpl;
      [intros _; exact E | discriminate].
  - destruct (FocusSession.is_complete _); [discriminate|].
    destruct (Main.tick tk w) as [w' [|]]; [apply IH | discriminate].
Qed.

Lemma loop_app pre rest : forall w,
  snd (Main.loop w pre) = Main.Running ->
  Main.loop w (pre ++ rest) = Main.loop (fst (Main.loop w pre)) rest.
Proof.
  induction pre as [|tk pre IH]; intros w; simpl.
  - destruct (FocusSession.is_complete (Main.session w)) eqn:E; [discriminate|].
    intros _. simpl. destruct rest; simpl; now rewrite ?E.
  - destruct (FocusSession.is_complete (Main.session w)); [discriminate|].
    destruct (Main.tick tk w) as [w' [|]]; [apply IH | discriminate].
Qed.

Lemma start_live c t0 a m : Main.live (Main.start c t0 a m).
Proof.
  unfold Main.live. simpl. intros _. destruct c; reflexivity.
Qed.

Lemma wrap_up_shows w :
  snd (Main.wrap_up w)
  = if Qeq_bool (FocusSession.time_remaining (Main.session w)) 0
    then [Main.CompletePanel; Main.Notification; Main.NotificationSound;
          Main.AwaitEnter]
    else [Main.EndedEarlyPanel].
Proof.
  unfold Main.wrap_up. destruct (Qeq_bool _ 0); reflexivity.
Qed.

(** C7. When the loop, still running after the iterations [pre], reads "q",
    it is left at once with [session_active] false and [time_remaining] as
    it stood, which is positive; what follows shows the "ended early" panel
    and nothing else.  In general the completion panel, the notification
    and the notification sound occur exactly when [time_remaining == 0] at
    the exit of the loop. *)
Theorem quit_leaves_time_remaining (c : Main.choice) (t0 : timestamp)
    (a : AudioPlayer.t) (m : Music.t) (pre post : list Main.Tick) (tq : Main.Tick) :
  Main.key tq = Some "q" ->
  snd (Main.loop (Main.start c t0 a m) pre) = Main.Running ->
  let before := fst (Main.loop (Main.start c t0 a m) pre) in
  let after := Main.loop (Main.start c t0 a m) (pre ++ tq :: post) in
  snd after = Main.Exited
  /\ FocusSession.session_active (Main.session (fst after)) = false
  /\ FocusSession.time_remaining (Main.session (fst after))
     = FocusSession.time_remaining (Main.session before)
  /\ 0 < FocusSession.time_remaining (Main.session (fst after))
  /\ snd (Main.wrap_up (fst after)) = [Main.EndedEarlyPanel]
  /\ (forall w shown,
        In shown [Main.CompletePanel; Main.Notification; Main.NotificationSound] ->
        In shown (snd (Main.wrap_up w))
        <-> FocusSession.time_remaining (Main.session w) == 0).
Proof.
  intros Hq Hrun. cbn zeta.
  rewrite (loop_app pre (tq :: post) _ Hrun).
  pose proof (loop_running_active pre _ Hrun) as Hact.
  pose proof (loop_live pre _ (start_live c t0 a m)) as Hlive.
  set (w := fst (Main.loop (Main.start c t0 a m) pre)) in *.
  specialize (Hlive Hact).
  assert (Hstep : Main.loop w (tq :: post)
                  = (Main.mk (Main.music w) (Main.audio_player w)
                       (FocusSession.set_session_active false (Main.session w))
                       (Main.last_status_msg w), Main.Exited)).
  { simpl. unfold FocusSession.is_complete. rewrite Hact. simpl.
    unfold Main.tick. rewrite Hq. reflexivity. }
  rewrite Hstep. simpl.
  split; [reflexivity|]. split; [reflexivity|]. split; [reflexivity|].
  split; [exact Hlive|]. split.
  - rewrite wrap_up_shows. simpl.
    destruct (Qeq_bool _ 0) eqn:E; [|reflexivity].
    apply Qeq_bool_eq in E. lra.
  - intros w' shown Hin. rewrite wrap_up_shows.
    destruct (Qeq_bool _ 0) eqn:E.
    + apply Qeq_bool_eq in E. split; [intros _; exact E|].
      intros _. simpl in *. tauto.
    + apply Qeq_bool_neq in E. split; [|intros H; contradiction].
      simpl. intros [H|[]]. subst shown.
      simpl in Hin. destruct Hin as [H|[H|[H|[]]]]; discriminate H.
Qed.

Lemma quit_leaves_time_remaining_witness :
  let pre := [Main.mk_tick None 1 1; Main.mk_tick (Some "m") 2 2] in
  let tq := Main.mk_tick (Some "q") 3 3 in
  let after :=
    Main.loop (Main.start Main.Min11 0 (fst AudioPlayer.init) (snd AudioPlayer.init))
              (pre ++ tq :: [Main.mk_tick None 4 4]) in
  snd after = Main.Exited
  /\ FocusSession.session_active (Main.session (fst after)) = false
  /\ 0 < FocusSession.time_remaining (Main.session (fst after))
  /\ snd (Main.wrap_up (fst after)) = [Main.EndedEarlyPanel].
Proof.
  cbv zeta.
  pose proof (quit_leaves_time_remaining Main.Min11 0
                (fst AudioPlayer.init) (snd AudioPlayer.init)
                [Main.mk_tick None 1 1; Main.mk_tick (Some "m") 2 2]
                [Main.mk_tick None 4 4] (Main.mk_tick (Some "q") 3 3)
                eq_refl eq_refl) as H.
  cbv zeta in H. destruct H as (H1 & H2 & _ & H4 & H5 & _).
  repeat split; assumption.
Defined.

(** The scenario of the specification, run on a terminal: eleven minutes,
    an iteration at 3 s, then "q".  657 seconds are left, the audio is
    stopped, the terminal is back in its settings. *)
Example quit_at_three_seconds :
  let cooked := KeyboardInput.mk_attr 1280 5 191 35387 15 15 [] in
  let term := KeyboardInput.mk_term true cooked [] in
  let ticks := [Main.mk_tick None 3 3; Main.mk_tick (Some "q") 3 3] in
  match Main.focus_phase (fun _ => KeyboardInput.mk_attr 0 4 191 35376 15 15 [])
          KeyboardInput.Posix Main.no_faults Main.Min11 0 ticks
          (fst AudioPlayer.init) (snd AudioPlayer.init) term with
  | Some (Main.mk_ending (Ok shown) (Some w) mixer term') =>
      shown = [Main.EndedEarlyPanel]
      /\ FocusSession.time_remaining (Main.session w) == 657
      /\ FocusSession.session_active (Main.session w) = false
      /\ Music.playing mixer = false
      /\ KeyboardInput.attrs term' = cooked
  | _ => False
  end.
Proof.
  simpl. repeat split.
Qed.

(** Left alone, a one-minute session completes and notifies. *)
Example one_minute_completes :
  let ticks := [Main.mk_tick None 30 30; Main.mk_tick None 61 61] in
  match Main.focus_phase (fun a => a) KeyboardInput.Win32 Main.no_faults
          Main.Min1 0 ticks (fst AudioPlayer.init) (snd AudioPlayer.init)
          (KeyboardInput.mk_term false (KeyboardInput.mk_attr 0 0 0 0 0 0 []) []) with
  | Some (Main.mk_ending (Ok shown) (Some w) _ _) =>
      In Main.Notification shown
      /\ FocusSession.time_remaining (Main.session w) = 0
      /\ FocusSession.is_complete (Main.session w) = true
  | _ => False
  end.
Proof.
  simpl. repeat split. right. left. reflexivity.
Qed.

(** ** Skipping the meditation *)

Lemma key_s_not_space k : k = Some "s" -> key_is k " " = false /\ key_is k "s" = true.
Proof. intros ->. split; reflexivity. Qed.

Lemma report_stops f :
  Music.playing (MeditationPlayer.music (snd (MeditationPlayer.report f))) = false
  /\ AudioPlayer.is_playing (MeditationPlayer.music (snd (MeditationPlayer.report f)))
     = false
  /\ fst (MeditationPlayer.report f)
     = (if MeditationPlayer.skip_requested (MeditationPlayer.self f)
        then MeditationPlayer.Skipped else MeditationPlayer.Complete)
  /\ MeditationPlayer.self (snd (MeditationPlayer.report f))
     = MeditationPlayer.self f.
Proof.
  unfold MeditationPlayer.report. simpl.
  destruct (MeditationPlayer.skip_requested (MeditationPlayer.self f));
    repeat split; reflexivity.
Qed.

Lemma outer_exit_after_skip d f polls :
  MeditationPlayer.skip_requested (MeditationPlayer.self f) = true ->
  MeditationPlayer.loop d MeditationPlayer.Outer f polls = Some (Ok tt, f).
Proof.
  intros H.
  assert (Hc : MeditationPlayer.outer_cond f = false).
  { unfold MeditationPlayer.outer_cond. rewrite H. simpl. apply andb_false_r. }
  destruct polls; simpl; rewrite Hc; reflexivity.
Qed.

Lemma outer_exit_when_idle d f polls :
  MeditationPlayer.outer_cond f = false ->
  MeditationPlayer.loop d MeditationPlayer.Outer f polls = Some (Ok tt, f).
Proof.
  intros H. destruct polls; cbn [MeditationPlayer.loop]; rewrite H; reflexivity.
Qed.

Lemma progress_then_loop d pre : forall at_ f a' f' rest,
  MeditationPlayer.progress d at_ f pre = Some (a', f') ->
  MeditationPlayer.loop d at_ f (pre ++ rest) = MeditationPlayer.loop d a' f' rest.
Proof.
  induction pre as [|p pre IH]; intros at_ f a' f' rest H.
  - destruct at_ as [|ps]; simpl in H.
    + destruct (MeditationPlayer.outer_cond f) eqn:E; [|discriminate].
      injection H as <- <-. reflexivity.
    + injection H as <- <-. reflexivity.
  - destruct at_ as [|ps]; simpl in H |- *.
    + destruct (MeditationPlayer.outer_cond f); [|discriminate].
      destruct (MeditationPlayer.outer_step d p f) as [f1 [a1| |e]];
        try discriminate. apply IH. exact H.
    + destruct (MeditationPlayer.inner_step ps p f) as [f1 [a1| |e]];
        try discriminate. apply IH. exact H.
Qed.

Lemma progress_outer_cond d pre : forall at_ f f',
  MeditationPlayer.progress d at_ f pre = Some (MeditationPlayer.Outer, f') ->
  MeditationPlayer.outer_cond f' = true.
Proof.
  induction pre as [|p pre IH]; intros at_ f f' H.
  - destruct at_ as [|ps]; simpl in H.
    + destruct (MeditationPlayer.outer_cond f) eqn:E; [|discriminate].
      injection H as <-. exact E.
    + discriminate.
  - destruct at_ as [|ps]; simpl in H.
    + destruct (MeditationPlayer.outer_cond f); [|discriminate].
      destruct (MeditationPlayer.outer_step d p f) as [f1 [a1| |e]];
        try discriminate. apply (IH _ _ _ H).
    + destruct (MeditationPlayer.inner_step ps p f) as [f1 [a1| |e]];
        try discriminate. apply (IH _ _ _ H).
Qed.

Lemma skip_leaves_loops d at_ f p polls :
  MeditationPlayer.key p = Some "s" ->
  (at_ = MeditationPlayer.Outer -> MeditationPlayer.outer_cond f = true) ->
  exists f',
    MeditationPlayer.loop d at_ f (p :: polls) = Some (Ok tt, f')
    /\ MeditationPlayer.skip_requested (MeditationPlayer.self f') = true
    /\ MeditationPlayer.elapsed_time f' = MeditationPlayer.elapsed_time f
    /\ MeditationPlayer.start_time f' = MeditationPlayer.start_time f.
Proof.
  intros Hk Hc. destruct (key_s_not_space _ Hk) as [Hsp Hs].
  destruct at_ as [|pause_start].
  - specialize (Hc eq_refl).
    set (f1 := if MeditationPlayer.ended p
               then MeditationPlayer.set_music
                      (Music.track_ended (MeditationPlayer.music f)) f
               else f).
    exists (MeditationPlayer.set_self
              (MeditationPlayer.set_skip_requested true (MeditationPlayer.self f1)) f1).
    assert (Hf1 : MeditationPlayer.elapsed_time f1 = MeditationPlayer.elapsed_time f
                  /\ MeditationPlayer.start_time f1 = MeditationPlayer.start_time f).
    { unfold f1. destruct (MeditationPlayer.ended p); split; reflexivity. }
    split.
    + simpl. rewrite Hc. unfold MeditationPlayer.outer_step.
      fold f1. rewrite Hsp, Hs. reflexivity.
    + simpl. destruct Hf1 as [E1 E2]. repeat split; assumption.
  - exists (MeditationPlayer.set_self
              (MeditationPlayer.set_skip_requested true (MeditationPlayer.self f)) f).
    split.
    + simpl. unfold MeditationPlayer.inner_step. rewrite Hsp, Hs.
      apply outer_exit_after_skip. reflexivity.
    + simpl. repeat split; reflexivity.
Qed.

(** What [play_with_progress] returns once its loops are known to end. *)
Lemma play_with_progress_returns raw plat length t0 polls s m term f1 :
  plat = KeyboardInput.Win32 \/ KeyboardInput.is_tty term = true ->
  MeditationPlayer.loop (length * 1000) MeditationPlayer.Outer
    (MeditationPlayer.mk_frame s (AudioPlayer.play (MeditationPlayer.file_path s) false m)
       t0 0) polls = Some (Ok tt, f1) ->
  exists term',
    MeditationPlayer.play_with_progress raw plat length t0 polls s m term
    = Some (Ok (fst (MeditationPlayer.report f1)),
            snd (MeditationPlayer.report f1), term')
    /\ KeyboardInput.attrs term' = KeyboardInput.attrs term.
Proof.
  intros Hopen Hl.
  unfold MeditationPlayer.play_with_progress, KeyboardInput.with_, KeyboardInput.enter.
  destruct plat; simpl.
  - rewrite Hl. destruct (MeditationPlayer.report f1) as [o f2].
    eexists. split; reflexivity.
  - destruct Hopen as [Hx|Htty]; [discriminate|]. rewrite Htty. simpl.
    rewrite Hl. destruct (MeditationPlayer.report f1) as [o f2].
    eexists. split; reflexivity.
Qed.

(** C8. Let the keyboard scope open and the meditation loops be still
    running after the polls [pre], in the outer loop or in the pause loop.
    When the next poll returns "s", [play_with_progress] returns: with
    [skip_requested] set, [elapsed_time] and [start_time] as they stood
    before that poll, the audio stopped and the outcome "skipped".  When
    instead the next poll, in the outer loop and unpaused, brings neither
    space nor "s" and the track is over (the clock has reached its length
    or the device has run out of it), [play_with_progress] returns with the
    audio stopped and the outcome "complete".  And whatever it returns
    normally, the audio is stopped and the outcome is "complete" exactly
    when no skip was requested. *)
Theorem skip_exits_meditation
    (raw_mode : KeyboardInput.termios_attr -> KeyboardInput.termios_attr)
    (plat : KeyboardInput.platform) (length : Q) (t0 : timestamp)
    (s : MeditationPlayer.t) (m : Music.t) (term : KeyboardInput.Terminal)
    (pre post : list MeditationPlayer.Poll) (p : MeditationPlayer.Poll)
    (at_ : MeditationPlayer.pc) (f : MeditationPlayer.frame) :
  plat = KeyboardInput.Win32 \/ KeyboardInput.is_tty term = true ->
  MeditationPlayer.progress (length * 1000) MeditationPlayer.Outer
    (MeditationPlayer.mk_frame s (AudioPlayer.play (MeditationPlayer.file_path s) false m)
       t0 0) pre = Some (at_, f) ->
  (MeditationPlayer.key p = Some "s" ->
   exists f' term',
     MeditationPlayer.play_with_progress raw_mode plat length t0
       (pre ++ p :: post) s m term
     = Some (Ok MeditationPlayer.Skipped, f', term')
     /\ MeditationPlayer.skip_requested (MeditationPlayer.self f') = true
     /\ MeditationPlayer.elapsed_time f' = MeditationPlayer.elapsed_time f
     /\ MeditationPlayer.start_time f' = MeditationPlayer.start_time f
     /\ AudioPlayer.is_playing (MeditationPlayer.music f') = false
     /\ Music.playing (MeditationPlayer.music f') = false
     /\ KeyboardInput.attrs term' = KeyboardInput.attrs term)
  /\ (at_ = MeditationPlayer.Outer ->
      MeditationPlayer.is_paused (MeditationPlayer.self f) = false ->
      key_is (MeditationPlayer.key p) " " = false ->
      key_is (MeditationPlayer.key p) "s" = false ->
      ~ length * 1000 == 0 ->
      (length * 1000
       <= (MeditationPlayer.now p - MeditationPlayer.start_time f) * 1000
       \/ (MeditationPlayer.ended p = true
           /\ Music.loops (MeditationPlayer.music f) = 0%Z)) ->
      exists f' term',
        MeditationPlayer.play_with_progress raw_mode plat length t0
          (pre ++ p :: post) s m term
        = Some (Ok MeditationPlayer.Complete, f', term')
        /\ MeditationPlayer.skip_requested (MeditationPlayer.self f') = false
        /\ AudioPlayer.is_playing (MeditationPlayer.music f') = false
        /\ Music.playing (MeditationPlayer.music f') = false
        /\ KeyboardInput.attrs term' = KeyboardInput.attrs term)
  /\ (forall script o f' term',
        MeditationPlayer.play_with_progress raw_mode plat length t0 script s m term
        = Some (Ok o, f', term') ->
        Music.playing (MeditationPlayer.music f') = false
        /\ (o = MeditationPlayer.Complete
            <-> MeditationPlayer.skip_requested (MeditationPlayer.self f') = false)).
Proof.
  intros Hopen Hpre. split; [|split].
  - intros Hk.
    destruct (skip_leaves_loops (length * 1000) at_ f p post Hk) as (f1 & Hl & Hs & He & Hst).
    { intros ->. apply (progress_outer_cond _ _ _ _ _ Hpre). }
    rewrite <- (progress_then_loop _ _ _ _ _ _ (p :: post) Hpre) in Hl.
    destruct (play_with_progress_returns raw_mode plat length t0 _ s m term f1
                Hopen Hl) as (term' & Hr & Ht).
    pose proof (report_stops f1) as (H1 & H2 & H3 & H4).
    rewrite Hs in H3. rewrite H3 in Hr.
    exists (snd (MeditationPlayer.report f1)), term'.
    split; [exact Hr|]. rewrite H4.
    split; [exact Hs|].
    assert (Hkeep : MeditationPlayer.elapsed_time (snd (MeditationPlayer.report f1))
                    = MeditationPlayer.elapsed_time f1
                    /\ MeditationPlayer.start_time (snd (MeditationPlayer.report f1))
                       = MeditationPlayer.start_time f1).
    { unfold MeditationPlayer.report. simpl.
      destruct (MeditationPlayer.skip_requested (MeditationPlayer.self f1));
        split; reflexivity. }
    destruct Hkeep as [K1 K2]. rewrite K1, K2.
    repeat split; assumption.
  - intros -> Hp Hsp Hs Hd Hend.
    pose proof (progress_outer_cond _ _ _ _ _ Hpre) as Hc.
    assert (X : exists f1,
              MeditationPlayer.loop (length * 1000) MeditationPlayer.Outer f (p :: post)
              = Some (Ok tt, f1)
              /\ MeditationPlayer.skip_requested (MeditationPlayer.self f1) = false).
    { assert (Hskip : MeditationPlayer.skip_requested (MeditationPlayer.self f) = false).
      { unfold MeditationPlayer.outer_cond in Hc. apply andb_true_iff in Hc.
        destruct Hc as [_ Hc]. apply negb_true_iff in Hc. exact Hc. }
      assert (Hz : Qeq_bool (length * 1000) 0 = false).
      { destruct (Qeq_bool (length * 1000) 0) eqn:E; [|reflexivity].
        apply Qeq_bool_eq in E. contradiction. }
      destruct f as [[file skip paused] mu st el]. simpl in Hp, Hskip, Hend.
      subst paused skip.
      cbn [MeditationPlayer.loop]. rewrite Hc.
      unfold MeditationPlayer.outer_step. rewrite Hsp, Hs.
      destruct (MeditationPlayer.ended p) eqn:Hen.
      - unfold MeditationPlayer.advance. simpl. rewrite Hz.
        destruct (Qle_bool (length * 1000) ((MeditationPlayer.now p - st) * 1000)) eqn:Hle.
        + eexists. split; reflexivity.
        + destruct Hend as [Hend|[_ Hl]].
          * apply Qle_bool_iff in Hend. congruence.
          * exists (MeditationPlayer.mk_frame (MeditationPlayer.mk file false false)
                      (Music.track_ended mu) st ((MeditationPlayer.now p - st) * 1000)).
            split; [|reflexivity].
            apply outer_exit_when_idle.
            unfold MeditationPlayer.outer_cond, AudioPlayer.is_playing,
              Music.get_busy, Music.track_ended. simpl. rewrite Hl. reflexivity.
      - destruct Hend as [Hend|[Hx _]]; [|discriminate].
        apply Qle_bool_iff in Hend.
        unfold MeditationPlayer.advance. simpl. rewrite Hz, Hend.
        eexists. split; reflexivity. }
    destruct X as (f1 & Hl & Hs1).
    rewrite <- (progress_then_loop _ _ _ _ _ _ (p :: post) Hpre) in Hl.
    destruct (play_with_progress_returns raw_mode plat length t0 _ s m term f1
                Hopen Hl) as (term' & Hr & Ht).
    pose proof (report_stops f1) as (H1 & H2 & H3 & H4).
    rewrite Hs1 in H3. rewrite H3 in Hr.
    exists (snd (MeditationPlayer.report f1)), term'.
    split; [exact Hr|]. rewrite H4. repeat split; assumption.
  - intros script o f' term'.
    unfold MeditationPlayer.play_with_progress, KeyboardInput.with_.
    destruct (KeyboardInput.enter raw_mode plat KeyboardInput.init term)
      as [[[[]|e] kb] term1]; [|discriminate].
    destruct (MeditationPlayer.loop _ _ _ script) as [[[[]|e] f1]|];
      [|discriminate|discriminate].
    pose proof (report_stops f1) as (H1 & _ & H3 & H4).
    destruct (MeditationPlayer.report f1) as [o1 f2].
    simpl in H1, H3, H4.
    intros H. injection H as Ho Hf _. subst o1 f2.
    split; [exact H1|].
    rewrite H4, <- Ho.
    destruct (MeditationPlayer.skip_requested (MeditationPlayer.self f1));
      split; intros; congruence.
Qed.

Lemma skip_exits_meditation_witness :
  let s := MeditationPlayer.init "meditation.mp3" in
  let term := KeyboardInput.mk_term false (KeyboardInput.mk_attr 0 0 0 0 0 0 []) [] in
  let pre := [MeditationPlayer.mk_poll false None (1 # 10);
              MeditationPlayer.mk_poll false None 1] in
  (exists f' term',
     MeditationPlayer.play_with_progress (fun a => a) KeyboardInput.Win32 180 0
       (pre ++ MeditationPlayer.mk_poll false (Some "s") 2
            :: [MeditationPlayer.mk_poll false None 3]) s Music.init term
     = Some (Ok MeditationPlayer.Skipped, f', term')
     /\ MeditationPlayer.skip_requested (MeditationPlayer.self f') = true
     /\ MeditationPlayer.elapsed_time f' = (1 - 0) * 1000
     /\ Music.playing (MeditationPlayer.music f') = false)
  /\ (exists f' term',
        MeditationPlayer.play_with_progress (fun a => a) KeyboardInput.Win32 180 0
          (pre ++ MeditationPlayer.mk_poll false None 180 :: []) s Music.init term
        = Some (Ok MeditationPlayer.Complete, f', term')
        /\ Music.playing (MeditationPlayer.music f') = false).
Proof.
  cbv zeta.
  assert (Hpre : MeditationPlayer.progress (180 * 1000) MeditationPlayer.Outer
                   (MeditationPlayer.mk_frame (MeditationPlayer.init "meditation.mp3")
                      (AudioPlayer.play
                         (MeditationPlayer.file_path (MeditationPlayer.init "meditation.mp3"))
                         false Music.init) 0 0)
                   [MeditationPlayer.mk_poll false None (1 # 10);
                    MeditationPlayer.mk_poll false None 1]
                 = Some (MeditationPlayer.Outer,
                         MeditationPlayer.mk_frame (MeditationPlayer.init "meditation.mp3")
                           (AudioPlayer.play "meditation.mp3" false Music.init)
                           0 ((1 - 0) * 1000))) by reflexivity.
  split.
  - destruct (skip_exits_meditation (fun a => a) KeyboardInput.Win32 180 0
                (MeditationPlayer.init "meditation.mp3") Music.init
                (KeyboardInput.mk_term false (KeyboardInput.mk_attr 0 0 0 0 0 0 []) [])
                [MeditationPlayer.mk_poll false None (1 # 10);
                 MeditationPlayer.mk_poll false None 1]
                [MeditationPlayer.mk_poll false None 3]
                (MeditationPlayer.mk_poll false (Some "s") 2)
                _ _ (or_introl eq_refl) Hpre) as (Hskip & _ & _).
    destruct (Hskip eq_refl) as (f' & term' & H1 & H2 & H3 & _ & _ & H6 & _).
    exists f', term'. repeat split; assumption.
  - destruct (skip_exits_meditation (fun a => a) KeyboardInput.Win32 180 0
                (MeditationPlayer.init "meditation.mp3") Music.init
                (KeyboardInput.mk_term false (KeyboardInput.mk_attr 0 0 0 0 0 0 []) [])
                [MeditationPlayer.mk_poll false None (1 # 10);
                 MeditationPlayer.mk_poll false None 1]
                []
                (MeditationPlayer.mk_poll false None 180)
                _ _ (or_introl eq_refl) Hpre) as (_ & Hend & _).
    destruct (Hend eq_refl eq_refl eq_refl eq_refl) as (f' & term' & H1 & _ & _ & H4 & _).
    + intros H. discriminate H.
    + left. simpl. lra.
    + exists f', term'. split; assumption.
Defined.

(** The scenario of the specification, run: a track of 180 s, polls every
    tenth of a second or so, "s" read at 2 s. *)
Example skip_at_two_seconds :
  let polls := [MeditationPlayer.mk_poll false None (1 # 10);
                MeditationPlayer.mk_poll false None 1;
                MeditationPlayer.mk_poll false (Some "s") 2] in
  match MeditationPlayer.play_with_progress (fun a => a) KeyboardInput.Win32
          180 0 polls (MeditationPlayer.init "meditation.mp3") Music.init
          (KeyboardInput.mk_term false (KeyboardInput.mk_attr 0 0 0 0 0 0 []) []) with
  | Some (Ok o, f, _) =>
      o = MeditationPlayer.Skipped
      /\ MeditationPlayer.elapsed_time f == 1000
      /\ Music.playing (MeditationPlayer.music f) = false
  | _ => False
  end.
Proof.
  simpl. repeat split.
Qed.

Example toggle_mute_once :
  AudioPlayer.toggle_mute (AudioPlayer.mk false 1) Music.init
  = (true, AudioPlayer.mk true 1, Music.mk None 0 false false 0).
Proof. reflexivity. Qed.

Example update_timer_runs :
  FocusSession.update_timer 3 (FocusSession.init 11 0)
  = FocusSession.mk (11 * 60) false true (11 * 60 - (3 - 0)) 3.
Proof. reflexivity. Qed.

(* ================================================================== *)
(** * Further properties of the timer *)

Lemma update_timer_bounded D t now s :
  Timeline.bounded D t s -> t <= now ->
  Timeline.bounded D now (FocusSession.update_timer now s)
  /\ FocusSession.time_remaining (FocusSession.update_timer now s)
     <= FocusSession.time_remaining s.
Proof.
  intros (Hlu & H0 & HD & Hd) Hle. unfold Timeline.bounded, FocusSession.update_timer.
  destruct (negb (FocusSession.is_paused s) && FocusSession.session_active s); simpl.
  - destruct (Qle_bool _ 0) eqn:Hb; simpl.
    + repeat split; try lra; assumption.
    + assert (Hn : ~ FocusSession.time_remaining s
                     - (now - FocusSession.last_update s) <= 0).
      { intros Hc. apply Qle_bool_iff in Hc. congruence. }
      repeat split; try lra; assumption.
  - repeat split; try lra; assumption.
Qed.

Lemma toggle_pause_bounded D t now s m :
  Timeline.bounded D t s -> t <= now ->
  Timeline.bounded D now (snd (fst (FocusSession.toggle_pause now s m)))
  /\ FocusSession.time_remaining (snd (fst (FocusSession.toggle_pause now s m)))
     = FocusSession.time_remaining s.
Proof.
  intros (Hlu & H0 & HD & Hd) Hle. unfold Timeline.bounded, FocusSession.toggle_pause.
  simpl. destruct (negb (FocusSession.is_paused s)); simpl;
    repeat split; try lra; assumption.
Qed.

Lemma step_bounded D t sm e :
  Timeline.bounded D t (fst sm) -> t <= Timeline.at_ e ->
  Timeline.bounded D (Timeline.at_ e) (fst (Timeline.step sm e))
  /\ FocusSession.time_remaining (fst (Timeline.step sm e))
     <= FocusSession.time_remaining (fst sm).
Proof.
  intros Hb Hle. destruct sm as [s m]. destruct e as [now|now]; simpl in *.
  - apply update_timer_bounded with (t := t); assumption.
  - destruct (toggle_pause_bounded D t now s m Hb Hle) as [H1 H2].
    destruct (FocusSession.toggle_pause now s m) as [[b s'] m']. simpl in *.
    split; [exact H1 | rewrite H2; lra].
Qed.

Lemma run_bounded D es : forall t sm,
  Timeline.bounded D t (fst sm) ->
  Timeline.nondecreasing t (map Timeline.at_ es) ->
  Timeline.bounded D (last (map Timeline.at_ es) t) (fst (Timeline.run sm es))
  /\ FocusSession.time_remaining (fst (Timeline.run sm es))
     <= FocusSession.time_remaining (fst sm).
Proof.
  induction es as [|e es IH]; intros t sm Hb Hnd.
  - simpl. split; [exact Hb | lra].
  - destruct Hnd as [Hle Hnd].
    destruct (step_bounded D t sm e Hb Hle) as [Hb' Hr'].
    destruct (IH _ _ Hb' Hnd) as [Hb'' Hr''].
    change (map Timeline.at_ (e :: es)) with (Timeline.at_ e :: map Timeline.at_ es).
    rewrite last_cons. simpl Timeline.run. split; [exact Hb''|]. 
    change (fold_left Timeline.step es (Timeline.step sm e))
      with (Timeline.run (Timeline.step sm e) es). lra.
Qed.

Lemma init_bounded dm t0 :
  0 <= dm -> Timeline.bounded (dm * 60) t0 (FocusSession.init dm t0).
Proof.
  intros H. unfold Timeline.bounded. simpl. repeat split; lra.
Qed.

Lemma step_complete_is_zero sm e :
  (FocusSession.session_active (fst sm) = false ->
   FocusSession.time_remaining (fst sm) = 0) ->
  FocusSession.session_active (fst (Timeline.step sm e)) = false ->
  FocusSession.time_remaining (fst (Timeline.step sm e)) = 0.
Proof.
  intros Hk. destruct sm as [s m]. destruct e as [now|now]; simpl in *.
  - unfold FocusSession.update_timer.
    destruct (negb (FocusSession.is_paused s) && FocusSession.session_active s) eqn:G;
      [|exact Hk].
    simpl. destruct (Qle_bool _ 0); simpl; [reflexivity|].
    apply andb_true_iff in G. destruct G as [_ G]. congruence.
  - unfold FocusSession.toggle_pause. simpl.
    destruct (negb (FocusSession.is_paused s)); simpl; exact Hk.
Qed.

Lemma run_complete_is_zero es : forall sm,
  (FocusSession.session_active (fst sm) = false ->
   FocusSession.time_remaining (fst sm) = 0) ->
  FocusSession.session_active (fst (Timeline.run sm es)) = false ->
  FocusSession.time_remaining (fst (Timeline.run sm es)) = 0.
Proof.
  induction es as [|e es IH]; intros sm Hk; [exact Hk|].
  simpl. apply IH. apply step_complete_is_zero. exact Hk.
Qed.

(** X1. Whatever calls are made on a timer, paired or not, as long as the
    clock does not run backwards: [time_remaining] stays between 0 and the
    duration, [last_update] is never later than the last call, the duration
    is not touched, and a timer that is complete has exactly 0 left. *)
Theorem timer_stays_in_range (duration_minutes : Q) (t0 : timestamp)
    (m : Music.t) (es : list Timeline.event) :
  0 <= duration_minutes ->
  Timeline.nondecreasing t0 (map Timeline.at_ es) ->
  let s := fst (Timeline.run (FocusSession.init duration_minutes t0, m) es) in
  0 <= FocusSession.time_remaining s
  /\ FocusSession.time_remaining s <= duration_minutes * 60
  /\ FocusSession.last_update s <= last (map Timeline.at_ es) t0
  /\ FocusSession.duration s = duration_minutes * 60
  /\ (FocusSession.is_complete s = true -> FocusSession.time_remaining s = 0).
Proof.
  intros Hd Hnd s.
  destruct (run_bounded (duration_minutes * 60) es t0
              (FocusSession.init duration_minutes t0, m)
              (init_bounded _ _ Hd) Hnd) as [(H1 & H2 & H3 & H4) _].
  fold s in H1, H2, H3, H4. repeat split; try assumption.
  intros Hc. apply run_complete_is_zero.
  - simpl. discriminate.
  - unfold FocusSession.is_complete in Hc. apply negb_true_iff in Hc. exact Hc.
Qed.

Lemma timer_stays_in_range_witness :
  let es := [Timeline.Update 10; Timeline.Toggle 20; Timeline.Update 30;
             Timeline.Update 45] in
  let s := fst (Timeline.run (FocusSession.init 1 0, Music.init) es) in
  0 <= FocusSession.time_remaining s
  /\ FocusSession.time_remaining s <= 1 * 60
  /\ FocusSession.last_update s <= 45.
Proof.
  assert (Hd : 0 <= 1) by lra.
  assert (Hnd : Timeline.nondecreasing 0
                  (map Timeline.at_ [Timeline.Update 10; Timeline.Toggle 20;
                                     Timeline.Update 30; Timeline.Update 45])).
  { simpl. repeat split; lra. }
  destruct (timer_stays_in_range 1 0 Music.init _ Hd Hnd) as (H1 & H2 & H3 & _).
  split; [exact H1|]. split; [exact H2 | exact H3].
Defined.

(** X2. With a clock that does not run backwards the countdown never goes
    up: after any further calls [time_remaining] is at most what it was. *)
Theorem time_remaining_never_increases (duration_minutes : Q) (t0 : timestamp)
    (m : Music.t) (es more : list Timeline.event) :
  0 <= duration_minutes ->
  Timeline.nondecreasing t0 (map Timeline.at_ (es ++ more)) ->
  FocusSession.time_remaining
    (fst (Timeline.run (FocusSession.init duration_minutes t0, m) (es ++ more)))
  <= FocusSession.time_remaining
       (fst (Timeline.run (FocusSession.init duration_minutes t0, m) es)).
Proof.
  intros Hd Hnd. rewrite map_app in Hnd.
  apply nondecreasing_app in Hnd. destruct Hnd as [Hnd1 Hnd2].
  destruct (run_bounded (duration_minutes * 60) es t0
              (FocusSession.init duration_minutes t0, m)
              (init_bounded _ _ Hd) Hnd1) as [Hb _].
  rewrite run_app.
  destruct (run_bounded (duration_minutes * 60) more _ _ Hb Hnd2) as [_ H].
  exact H.
Qed.

Lemma time_remaining_never_increases_witness :
  FocusSession.time_remaining
    (fst (Timeline.run (FocusSession.init 1 0, Music.init)
            ([Timeline.Update 10] ++ [Timeline.Toggle 20; Timeline.Toggle 25;
                                      Timeline.Update 30])))
  <= FocusSession.time_remaining
       (fst (Timeline.run (FocusSession.init 1 0, Music.init) [Timeline.Update 10])).
Proof.
  assert (Hd : 0 <= 1) by lra.
  apply (time_remaining_never_increases 1 0 Music.init [Timeline.Update 10]
           [Timeline.Toggle 20; Timeline.Toggle 25; Timeline.Update 30] Hd).
  simpl. repeat split; lra.
Defined.

(* ================================================================== *)
(** * The display *)

Lemma Qfloor_unique (x : Q) (z : Z) :
  inject_Z z <= x -> x < inject_Z (z + 1) -> Qfloor x = z.
Proof.
  intros H1 H2.
  assert (Ha : (z <= Qfloor x)%Z).
  { rewrite <- (Qfloor_Z z). apply Qfloor_resp_le. exact H1. }
  assert (Hb : (Qfloor x < z + 1)%Z).
  { rewrite Zlt_Qlt. apply Qle_lt_trans with x; [apply Qfloor_le | exact H2]. }
  lia.
Qed.

Lemma int_of_nonneg (x : Q) : 0 <= x -> int_of x = Qfloor x.
Proof.
  intros H. unfold int_of. apply Qle_bool_iff in H. now rewrite H.
Qed.

Lemma Qlt_bool_iff (x y : Q) : Qlt_bool x y = true <-> x < y.
Proof.
  unfold Qlt_bool. rewrite negb_true_iff. split.
  - intros H. destruct (Qlt_le_dec x y) as [|Hle]; [assumption|].
    apply Qle_bool_iff in Hle. congruence.
  - intros H. destruct (Qle_bool y x) eqn:E; [|reflexivity].
    apply Qle_bool_iff in E. lra.
Qed.

Lemma string_length_append (a b : string) :
  String.length (a ++ b) = (String.length a + String.length b)%nat.
Proof.
  induction a as [|c a IH]; simpl; [reflexivity | now rewrite IH].
Qed.

Lemma format_02d_width (n : Z) :
  (0 <= n < 100)%Z -> String.length (format_02d n) = 2%nat.
Proof.
  intros H. rewrite <- (Z2Nat.id n) by lia.
  assert (Hk : (Z.to_nat n < 100)%nat) by lia.
  generalize dependent (Z.to_nat n). intros k Hk.
  do 100 (destruct k as [|k]; [reflexivity|]). lia.
Qed.

Lemma inject_Z_less_sixties (a q : Z) :
  inject_Z (a - 60 * q) == inject_Z a - 60 * inject_Z q.
Proof.
  unfold Z.sub. rewrite inject_Z_plus, inject_Z_opp, inject_Z_mult.
  change (inject_Z 60) with 60. lra.
Qed.

Lemma floor_of_sixtieth (x : Q) :
  0 <= x ->
  let q := Qfloor (x / 60) in
  (0 <= q)%Z /\ inject_Z q * 60 <= x /\ x < inject_Z (q + 1) * 60.
Proof.
  intros Hx q.
  assert (Hy : x / 60 * 60 == x) by field.
  pose proof (Qfloor_le (x / 60)) as H1. pose proof (Qlt_floor (x / 60)) as H2.
  fold q in H1, H2.
  assert (H0 : 0 <= x / 60) by lra.
  repeat split; try lra.
  rewrite <- (Qfloor_Z 0). apply Qfloor_resp_le. exact H0.
Qed.

Lemma format_02d_digits (n : Z) :
  (0 <= n < 100)%Z -> format_02d n = two_digits n.
Proof.
  intros H. rewrite <- (Z2Nat.id n) by lia.
  assert (Hk : (Z.to_nat n < 100)%nat) by lia.
  generalize dependent (Z.to_nat n). intros k Hk.
  do 100 (destruct k as [|k]; [reflexivity|]). lia.
Qed.

(** X3. [get_progress_string] shows the whole seconds that remain: for a
    remainder that is not negative, sixty times the minutes plus the seconds
    is the floor of [time_remaining], with the seconds between 0 and 59.
    Below one hundred minutes the string is, digit for digit, the floor of
    the seconds left divided by sixty, a colon, and the rest of that
    division, each as two decimal digits. *)
Theorem progress_string_shows_floor (s : FocusSession.t) :
  0 <= FocusSession.time_remaining s ->
  let minutes := FocusSession.progress_minutes s in
  let seconds := FocusSession.progress_seconds s in
  let whole := Qfloor (FocusSession.time_remaining s) in
  (0 <= minutes)%Z /\ (0 <= seconds < 60)%Z
  /\ (minutes * 60 + seconds = whole)%Z
  /\ (FocusSession.time_remaining s < 6000 ->
      FocusSession.get_progress_string s
      = (two_digits (whole / 60) ++ ":" ++ two_digits (whole mod 60))%string
      /\ String.length (FocusSession.get_progress_string s) = 5%nat
      /\ String.get 2 (FocusSession.get_progress_string s) = Some ":"%char).
Proof.
  intros Hr minutes seconds whole.
  destruct (floor_of_sixtieth _ Hr) as (Hq0 & Hq1 & Hq2).
  set (q := Qfloor (FocusSession.time_remaining s / 60)) in *.
  assert (Hm : minutes = q).
  { unfold minutes, FocusSession.progress_minutes, floordiv. fold q.
    rewrite int_of_nonneg.
    - apply Qfloor_Z.
    - change 0 with (inject_Z 0). rewrite <- Zle_Qle. exact Hq0. }
  rewrite inject_Z_plus in Hq2. change (inject_Z 1) with 1 in Hq2.
  assert (Hs : seconds = (whole - 60 * q)%Z).
  { unfold seconds, whole, FocusSession.progress_seconds, pymod. fold q.
    rewrite int_of_nonneg by lra.
    apply Qfloor_unique.
    - rewrite inject_Z_less_sixties.
      pose proof (Qfloor_le (FocusSession.time_remaining s)). lra.
    - rewrite inject_Z_plus, inject_Z_less_sixties.
      change (inject_Z 1) with 1.
      pose proof (Qlt_floor (FocusSession.time_remaining s)) as H.
      rewrite inject_Z_plus in H. change (inject_Z 1) with 1 in H. lra. }
  assert (Hf1 : (60 * q <= whole)%Z).
  { unfold whole. rewrite <- (Qfloor_Z (60 * q)). apply Qfloor_resp_le.
    rewrite inject_Z_mult. change (inject_Z 60) with 60. lra. }
  assert (Hf2 : (whole < 60 * q + 60)%Z).
  { unfold whole. rewrite Zlt_Qlt.
    apply Qle_lt_trans with (FocusSession.time_remaining s); [apply Qfloor_le|].
    rewrite inject_Z_plus, inject_Z_mult. change (inject_Z 60) with 60. lra. }
  split; [lia|]. split; [lia|]. split; [lia|].
  intros Hlt.
  assert (Hm100 : (0 <= minutes < 100)%Z).
  { split; [lia|]. rewrite Hm.
    assert (Hq : inject_Z q < 100) by lra.
    change 100 with (inject_Z 100) in Hq. rewrite <- Zlt_Qlt in Hq. exact Hq. }
  assert (Hs60 : (0 <= seconds < 100)%Z) by lia.
  assert (Hdiv : (whole / 60 = minutes)%Z).
  { symmetry. apply (Z.div_unique_pos whole 60 minutes seconds); lia. }
  assert (Hmod : (whole mod 60 = seconds)%Z).
  { symmetry. apply (Z.mod_unique_pos whole 60 minutes seconds); lia. }
  assert (Hstr : FocusSession.get_progress_string s
                 = (two_digits (whole / 60) ++ ":"
                    ++ two_digits (whole mod 60))%string).
  { unfold FocusSession.get_progress_string. fold minutes seconds.
    rewrite Hdiv, Hmod.
    now rewrite (format_02d_digits _ Hm100), (format_02d_digits _ Hs60). }
  split; [exact Hstr|]. rewrite Hstr. split; reflexivity.
Qed.

Lemma progress_string_shows_floor_witness :
  let s := FocusSession.mk 660 false true (6574 # 10) 3 in
  (FocusSession.progress_minutes s * 60 + FocusSession.progress_seconds s
   = Qfloor (6574 # 10))%Z
  /\ FocusSession.get_progress_string s = "10:57".
Proof.
  assert (H0 : 0 <= FocusSession.time_remaining
                      (FocusSession.mk 660 false true (6574 # 10) 3))
    by (simpl; lra).
  destruct (progress_string_shows_floor _ H0) as (_ & _ & Hsum & Hw).
  split; [exact Hsum|].
  assert (Hlt : FocusSession.time_remaining
                  (FocusSession.mk 660 false true (6574 # 10) 3) < 6000)
    by (simpl; lra).
  destruct (Hw Hlt) as (Hstr & _). rewrite Hstr. reflexivity.
Defined.

Lemma percentage_bounds (s : FocusSession.t) :
  0 <= FocusSession.time_remaining s ->
  FocusSession.time_remaining s <= FocusSession.duration s ->
  0 <= FocusSession.get_progress_percentage s
  /\ FocusSession.get_progress_percentage s <= 100
  /\ (FocusSession.time_remaining s == 0 ->
      FocusSession.get_progress_percentage s == 100).
Proof.
  intros H0 H1. unfold FocusSession.get_progress_percentage.
  destruct (Qlt_bool 0 (FocusSession.duration s)) eqn:E.
  - apply Qlt_bool_iff in E.
    set (d := FocusSession.duration s) in *.
    set (r := FocusSession.time_remaining s) in *.
    assert (Ha : 0 <= (d - r) / d) by (apply Qle_shift_div_l; [exact E | lra]).
    assert (Hb : (d - r) / d <= 1) by (apply Qle_shift_div_r; [exact E | lra]).
    split; [lra|]. split; [lra|].
    intros Hz. assert (Hc : (d - r) / d == 1).
    { rewrite Hz. field. lra. }
    rewrite Hc. reflexivity.
  - split; [lra|]. split; [lra|]. intros _. reflexivity.
Qed.

(** X4. With [time_remaining] between 0 and the duration, the percentage
    lies between 0 and 100, and nothing left means 100 per cent, also for
    a session of length zero, where no division takes place. *)
Theorem progress_percentage_in_range (s : FocusSession.t) :
  0 <= FocusSession.time_remaining s ->
  FocusSession.time_remaining s <= FocusSession.duration s ->
  0 <= FocusSession.get_progress_percentage s
  /\ FocusSession.get_progress_percentage s <= 100
  /\ (FocusSession.time_remaining s == 0 ->
      FocusSession.get_progress_percentage s == 100).
Proof.
  apply percentage_bounds.
Qed.

Lemma progress_percentage_in_range_witness :
  let s := FocusSession.mk 60 false true 15 45 in
  0 <= FocusSession.get_progress_percentage s
  /\ FocusSession.get_progress_percentage s <= 100.
Proof.
  assert (H0 : 0 <= FocusSession.time_remaining (FocusSession.mk 60 false true 15 45))
    by (simpl; lra).
  assert (H1 : FocusSession.time_remaining (FocusSession.mk 60 false true 15 45)
               <= FocusSession.duration (FocusSession.mk 60 false true 15 45))
    by (simpl; lra).
  destruct (progress_percentage_in_range _ H0 H1) as (Ha & Hb & _).
  split; assumption.
Defined.

Lemma bar_cells_of_percentage (pct : Q) :
  0 <= pct -> pct <= 100 ->
  (Z.to_nat (int_of (pct / 5)) + Z.to_nat (20 - int_of (pct / 5)) = 20)%nat.
Proof.
  intros H0 H1.
  assert (Ha : 0 <= pct / 5) by (apply Qle_shift_div_l; lra).
  assert (Hb : pct / 5 <= 20) by (apply Qle_shift_div_r; lra).
  rewrite int_of_nonneg by exact Ha.
  assert (Hf0 : (0 <= Qfloor (pct / 5))%Z).
  { rewrite <- (Qfloor_Z 0). apply Qfloor_resp_le. exact Ha. }
  assert (Hf1 : (Qfloor (pct / 5) <= 20)%Z).
  { rewrite <- (Qfloor_Z 20). apply Qfloor_resp_le. exact Hb. }
  lia.
Qed.

Lemma tick_bounded D t tk w :
  Timeline.bounded D t (Main.session w) ->
  t <= Main.t_toggle tk -> Main.t_toggle tk <= Main.t_update tk ->
  Timeline.bounded D (Main.t_update tk) (Main.session (fst (Main.tick tk w))).
Proof.
  intros Hb H1 H2.
  assert (Hup : forall s, Timeline.bounded D t s ->
                Timeline.bounded D (Main.t_update tk)
                  (FocusSession.update_timer (Main.t_update tk) s)).
  { intros s Hs. apply (update_timer_bounded D t); [exact Hs | lra]. }
  unfold Main.tick.
  destruct (key_is (Main.key tk) " ").
  - destruct (toggle_pause_bounded D t (Main.t_toggle tk) (Main.session w)
                (Main.music w) Hb H1) as [Hb' _].
    destruct (FocusSession.toggle_pause _ _ _) as [[b s'] m']. simpl in *.
    apply (update_timer_bounded D (Main.t_toggle tk)); assumption.
  - destruct (key_is (Main.key tk) "m").
    + destruct (AudioPlayer.toggle_mute _ _) as [[b a'] m']. simpl.
      apply Hup. exact Hb.
    + destruct (key_is (Main.key tk) "q"); simpl.
      * destruct Hb as (Ha & Hb & Hc & Hd). unfold Timeline.bounded. simpl.
        repeat split; try assumption. lra.
      * apply Hup. exact Hb.
Qed.

Lemma loop_bounded D ticks : forall t w,
  Timeline.bounded D t (Main.session w) ->
  Main.in_order t ticks ->
  exists t', Timeline.bounded D t' (Main.session (fst (Main.loop w ticks))).
Proof.
  induction ticks as [|tk ticks IH]; intros t w Hb Hord; simpl.
  - exists t. destruct (FocusSession.is_complete _); exact Hb.
  - destruct (FocusSession.is_complete _); [exists t; exact Hb|].
    destruct Hord as (H1 & H2 & Hord).
    pose proof (tick_bounded D t tk w Hb H1 H2) as Hb'.
    destruct (Main.tick tk w) as [w' [|]]; simpl in Hb'.
    + apply (IH _ _ Hb' Hord).
    + exists (Main.t_update tk). exact Hb'.
Qed.

(** X5. However the focus loop is driven, by whatever keys, as long as the
    clock readings come in order: the percentage drawn lies between 0 and
    100 and the bar is twenty cells long, filled and empty together. *)
Theorem bar_is_twenty_cells (c : Main.choice) (t0 : timestamp)
    (a : AudioPlayer.t) (m : Music.t) (ticks : list Main.Tick) :
  Main.in_order t0 ticks ->
  let w := fst (Main.loop (Main.start c t0 a m) ticks) in
  0 <= FocusSession.get_progress_percentage (Main.session w)
  /\ FocusSession.get_progress_percentage (Main.session w) <= 100
  /\ (Main.filled_cells (Main.render w) + Main.empty_cells (Main.render w) = 20)%nat.
Proof.
  intros Hord w.
  assert (Hb0 : Timeline.bounded (inject_Z (Main.minutes c) * 60) t0
                  (Main.session (Main.start c t0 a m))).
  { apply init_bounded. destruct c; unfold Qle; simpl; lia. }
  destruct (loop_bounded _ ticks t0 _ Hb0 Hord) as [t' (_ & H0 & H1 & Hd)].
  fold w in H0, H1, Hd. rewrite <- Hd in H1.
  destruct (percentage_bounds _ H0 H1) as (Ha & Hb & _).
  split; [exact Ha|]. split; [exact Hb|].
  unfold Main.render. simpl. apply bar_cells_of_percentage; assumption.
Qed.

Lemma bar_is_twenty_cells_witness :
  let ticks := [Main.mk_tick None 1 1; Main.mk_tick (Some " ") 2 3;
                Main.mk_tick (Some "m") 4 4; Main.mk_tick (Some " ") 30 31] in
  let w := fst (Main.loop (Main.start Main.Min1 0 (fst AudioPlayer.init)
                             (snd AudioPlayer.init)) ticks) in
  (Main.filled_cells (Main.render w) + Main.empty_cells (Main.render w) = 20)%nat.
Proof.
  cbv zeta.
  refine (proj2 (proj2 (bar_is_twenty_cells Main.Min1 0 (fst AudioPlayer.init)
                          (snd AudioPlayer.init)
                          [Main.mk_tick None 1 1; Main.mk_tick (Some " ") 2 3;
                           Main.mk_tick (Some "m") 4 4; Main.mk_tick (Some " ") 30 31]
                          _))).
  simpl. repeat split; lra.
Defined.

(* ================================================================== *)
(** * Further properties of the focus loop *)

Lemma tick_keeps_audio_in_step tk w :
  Music.paused (Main.music w) = FocusSession.is_paused (Main.session w) ->
  Music.playing (Main.music w) = true ->
  let w' := fst (Main.tick tk w) in
  Music.paused (Main.music w') = FocusSession.is_paused (Main.session w')
  /\ Music.playing (Main.music w') = true
  /\ Music.track (Main.music w') = Music.track (Main.music w)
  /\ Music.loops (Main.music w') = Music.loops (Main.music w).
Proof.
  intros Hs Hp. cbn zeta.
  assert (Hupd : forall now s, FocusSession.is_paused (FocusSession.update_timer now s)
                               = FocusSession.is_paused s).
  { intros now s. unfold FocusSession.update_timer.
    destruct (negb (FocusSession.is_paused s) && FocusSession.session_active s);
      [|reflexivity].
    simpl. destruct (Qle_bool _ 0); reflexivity. }
  unfold Main.tick.
  destruct (key_is (Main.key tk) " ").
  - unfold FocusSession.toggle_pause. simpl.
    destruct (negb (FocusSession.is_paused (Main.session w))) eqn:E; simpl;
      rewrite ?Hupd; simpl; rewrite ?E; repeat split; assumption.
  - destruct (key_is (Main.key tk) "m").
    + unfold AudioPlayer.toggle_mute.
      destruct (AudioPlayer.is_muted (Main.audio_player w)); simpl;
        rewrite Hupd; repeat split; assumption.
    + destruct (key_is (Main.key tk) "q"); simpl; rewrite ?Hupd;
        repeat split; assumption.
Qed.

Lemma loop_keeps_audio_in_step ticks : forall w,
  Music.paused (Main.music w) = FocusSession.is_paused (Main.session w) ->
  Music.playing (Main.music w) = true ->
  let w' := fst (Main.loop w ticks) in
  Music.paused (Main.music w') = FocusSession.is_paused (Main.session w')
  /\ Music.playing (Main.music w') = true
  /\ Music.track (Main.music w') = Music.track (Main.music w)
  /\ Music.loops (Main.music w') = Music.loops (Main.music w).
Proof.
  induction ticks as [|tk ticks IH]; intros w Hs Hp; simpl.
  - destruct (FocusSession.is_complete _); simpl; repeat split; assumption.
  - destruct (FocusSession.is_complete _); [simpl; repeat split; assumption|].
    destruct (tick_keeps_audio_in_step tk w Hs Hp) as (H1 & H2 & H3 & H4).
    destruct (Main.tick tk w) as [w' [|]]; simpl in *.
    + destruct (IH w' H1 H2) as (G1 & G2 & G3 & G4).
      repeat split; congruence.
    + repeat split; assumption.
Qed.

(** X6. Throughout the focus loop the audio and the timer are paused
    together: the mixer is paused exactly when the session is, the rain
    track stays loaded, looping and started, and it is heard playing exactly
    when the session is not paused.  Muting, quitting and completion do not
    disturb this. *)
Theorem audio_paused_with_timer (c : Main.choice) (t0 : timestamp)
    (a : AudioPlayer.t) (m : Music.t) (ticks : list Main.Tick) :
  let w := fst (Main.loop (Main.start c t0 a m) ticks) in
  Music.paused (Main.music w) = FocusSession.is_paused (Main.session w)
  /\ AudioPlayer.is_playing (Main.music w)
     = negb (FocusSession.is_paused (Main.session w))
  /\ Music.track (Main.music w) = Some "rain.mp3"
  /\ Music.loops (Main.music w) = (-1)%Z.
Proof.
  cbn zeta.
  destruct (loop_keeps_audio_in_step ticks (Main.start c t0 a m)
              eq_refl eq_refl) as (H1 & H2 & H3 & H4).
  split; [exact H1|]. split.
  - unfold AudioPlayer.is_playing, Music.get_busy. now rewrite H2, H1.
  - split; [exact H3 | exact H4].
Qed.

Lemma loop_exited_complete ticks : forall w,
  snd (Main.loop w ticks) = Main.Exited ->
  FocusSession.is_complete (Main.session (fst (Main.loop w ticks))) = true.
Proof.
  induction ticks as [|tk ticks IH]; intros w; simpl.
  - destruct (FocusSession.is_complete (Main.session w)) eqn:E; simpl;
      [intros _; exact E | discriminate].
  - destruct (FocusSession.is_complete (Main.session w)) eqn:E; simpl;
      [intros _; exact E|].
    unfold Main.tick.
    destruct (key_is (Main.key tk) " ").
    + destruct (FocusSession.toggle_pause _ _ _) as [[b s'] m']. simpl. apply IH.
    + destruct (key_is (Main.key tk) "m").
      * destruct (AudioPlayer.toggle_mute _ _) as [[b a'] m']. simpl. apply IH.
      * destruct (key_is (Main.key tk) "q"); simpl; [reflexivity | apply IH].
Qed.

(** X7. The focus loop is left exactly when the session is complete: a
    loop that has exited, by the quit key or by the countdown, has a
    complete session, and a loop still running has an active one. *)
Theorem loop_exits_iff_complete (w : Main.state) (ticks : list Main.Tick) :
  snd (Main.loop w ticks) = Main.Exited
  <-> FocusSession.is_complete (Main.session (fst (Main.loop w ticks))) = true.
Proof.
  split; [apply loop_exited_complete|].
  intros Hc. destruct (snd (Main.loop w ticks)) eqn:E; [|reflexivity].
  pose proof (loop_running_active ticks w E) as Ha.
  unfold FocusSession.is_complete in Hc. rewrite Ha in Hc. discriminate.
Qed.

Lemma tick_status_msg tk w :
  In (Main.last_status_msg w) [EmptyString; "PAUSED"; "RESUMED"; "MUTED"; "SOUND ON"] ->
  In (Main.last_status_msg (fst (Main.tick tk w)))
     [EmptyString; "PAUSED"; "RESUMED"; "MUTED"; "SOUND ON"].
Proof.
  intros H. unfold Main.tick.
  destruct (key_is (Main.key tk) " ").
  - destruct (FocusSession.toggle_pause _ _ _) as [[[|] s'] m']; simpl; tauto.
  - destruct (key_is (Main.key tk) "m").
    + destruct (AudioPlayer.toggle_mute _ _) as [[[|] a'] m']; simpl; tauto.
    + destruct (key_is (Main.key tk) "q"); simpl; exact H.
Qed.

Lemma loop_status_msg ticks : forall w,
  In (Main.last_status_msg w) [EmptyString; "PAUSED"; "RESUMED"; "MUTED"; "SOUND ON"] ->
  In (Main.last_status_msg (fst (Main.loop w ticks)))
     [EmptyString; "PAUSED"; "RESUMED"; "MUTED"; "SOUND ON"].
Proof.
  induction ticks as [|tk ticks IH]; intros w H; simpl.
  - destruct (FocusSession.is_complete _); exact H.
  - destruct (FocusSession.is_complete _); [exact H|].
    pose proof (tick_status_msg tk w H) as H'.
    destruct (Main.tick tk w) as [w' [|]]; simpl in *; [apply IH|]; exact H'.
Qed.

(** X8. The status line never lacks its label: whatever keys the loop has
    read, the message in force is empty or one of the four the loop sets,
    and the chain of substring tests finds a label for each; the label is
    ACTIVE exactly while the message is still empty. *)
Theorem label_is_always_shown (c : Main.choice) (t0 : timestamp)
    (a : AudioPlayer.t) (m : Music.t) (ticks : list Main.Tick) :
  let w := fst (Main.loop (Main.start c t0 a m) ticks) in
  Main.shown_label (Main.render w) <> None
  /\ (Main.shown_label (Main.render w) = Some Main.ACTIVE
      <-> Main.last_status_msg w = EmptyString).
Proof.
  cbn zeta.
  pose proof (loop_status_msg ticks (Main.start c t0 a m) (or_introl eq_refl)) as H.
  unfold Main.render. simpl.
  destruct H as [H|[H|[H|[H|[H|[]]]]]]; rewrite <- H; simpl;
    (split; [discriminate | split; intros G; try discriminate G; reflexivity]).
Qed.

Lemma loop_or_raise_pending fl w ticks :
  Main.loop_or_raise fl w ticks = None -> snd (Main.loop w ticks) = Main.Running.
Proof.
  unfold Main.loop_or_raise. destruct (Main.poll_read fl) as [[k e]|].
  - destruct (Main.loop w (firstn k ticks)) as [w1 [|]] eqn:E; [|discriminate].
    destruct (Nat.ltb_spec k (List.length ticks)) as [|Hge]; [discriminate|].
    intros _. rewrite firstn_all2 in E by exact Hge. now rewrite E.
  - destruct (Main.loop w ticks) as [w1 [|]]; [reflexivity | discriminate].
Qed.

(** X9. The [finally] clause covers every way out of the focus phase once
    the rain track is loaded: whether the summary is shown, the keyboard
    scope fails to open, a poll raises, or the notification, its sound or
    the prompt raises, the phase ends with the audio stopped and the
    terminal in the settings it had.  Loading the rain track comes before
    the [try]: if that raises, nothing else is done, the mixer and the
    terminal are as they were and no session exists.  The phase is still
    under way only while its loop is. *)
Theorem focus_phase_cleans_up
    (raw_mode : KeyboardInput.termios_attr -> KeyboardInput.termios_attr)
    (plat : KeyboardInput.platform) (fl : Main.Faults) (c : Main.choice)
    (t0 : timestamp) (ticks : list Main.Tick) (a : AudioPlayer.t) (m : Music.t)
    (term : KeyboardInput.Terminal) :
  match Main.focus_phase raw_mode plat fl c t0 ticks a m term with
  | Some en =>
      KeyboardInput.attrs (Main.terminal en) = KeyboardInput.attrs term
      /\ (Main.rain_load fl = None ->
          Music.playing (Main.mixer en) = false
          /\ AudioPlayer.is_playing (Main.mixer en) = false
          /\ exists w, Main.ended_in en = Some w /\ Main.music w = Main.mixer en)
      /\ (forall e, Main.rain_load fl = Some e ->
            en = Main.mk_ending (Raise e) None m term)
      /\ (Main.rain_load fl = None -> plat = KeyboardInput.Posix ->
          KeyboardInput.is_tty term = false ->
          Main.outcome en = Raise "termios.error" /\ Main.terminal en = term)
  | None =>
      Main.rain_load fl = None
      /\ (plat = KeyboardInput.Win32 \/ KeyboardInput.is_tty term = true)
      /\ snd (Main.loop (Main.start c t0 a m) ticks) = Main.Running
  end.
Proof.
  unfold Main.focus_phase.
  destruct (Main.rain_load fl) as [e|] eqn:Hrain.
  - simpl. split; [reflexivity|]. split; [discriminate|].
    split; [|discriminate]. intros e' He'. injection He' as <-. reflexivity.
  - unfold KeyboardInput.with_, KeyboardInput.enter.
    destruct plat; simpl.
    + destruct (Main.loop_or_raise fl (Main.start c t0 a m) ticks)
        as [[[[]|e] w1]|] eqn:E.
      * destruct (Main.wrap_up_or_raise fl w1) as [r w2]. simpl.
        split; [reflexivity|]. split; [intros _; repeat split; eauto|].
        split; [discriminate|]. intros _ Hx. discriminate Hx.
      * simpl. split; [reflexivity|]. split; [intros _; repeat split; eauto|].
        split; [discriminate|]. intros _ Hx. discriminate Hx.
      * split; [reflexivity|]. split; [left; reflexivity|].
        apply (loop_or_raise_pending _ _ _ E).
    + destruct (KeyboardInput.is_tty term) eqn:T; simpl.
      * destruct (Main.loop_or_raise fl (Main.start c t0 a m) ticks)
          as [[[[]|e] w1]|] eqn:E.
        -- destruct (Main.wrap_up_or_raise fl w1) as [r w2]. simpl.
           split; [reflexivity|]. split; [intros _; repeat split; eauto|].
           split; [discriminate|]. intros _ _ Hx. discriminate Hx.
        -- simpl. split; [reflexivity|]. split; [intros _; repeat split; eauto|].
           split; [discriminate|]. intros _ _ Hx. discriminate Hx.
        -- split; [reflexivity|]. split; [right; reflexivity|].
           apply (loop_or_raise_pending _ _ _ E).
      * split; [reflexivity|]. split; [intros _; repeat split; eauto|].
        split; [discriminate|]. intros _ _ _. split; reflexivity.
Qed.

(** X10. The meditation phase also leaves the terminal with the settings
    it had, on every return, an exception out of the loop included.  But
    it has no cleanup of the audio: when the keyboard scope fails to open
    (stdin no terminal, platform other than win32), the exception leaves
    with the track that was just started still playing. *)
Theorem meditation_leaves_audio_on_failure
    (raw_mode : KeyboardInput.termios_attr -> KeyboardInput.termios_attr)
    (plat : KeyboardInput.platform) (length : Q) (t0 : timestamp)
    (polls : list MeditationPlayer.Poll) (s : MeditationPlayer.t) (m : Music.t)
    (term term' : KeyboardInput.Terminal) (r : result MeditationPlayer.outcome)
    (f : MeditationPlayer.frame) :
  MeditationPlayer.play_with_progress raw_mode plat length t0 polls s m term
  = Some (r, f, term') ->
  KeyboardInput.attrs term' = KeyboardInput.attrs term
  /\ (plat = KeyboardInput.Posix -> KeyboardInput.is_tty term = false ->
      r = Raise "termios.error" /\ term' = term
      /\ AudioPlayer.is_playing (MeditationPlayer.music f) = true
      /\ Music.track (MeditationPlayer.music f) = Some (MeditationPlayer.file_path s)).
Proof.
  unfold MeditationPlayer.play_with_progress, KeyboardInput.with_, KeyboardInput.enter.
  destruct plat; simpl.
  - destruct (MeditationPlayer.loop _ _ _ polls) as [[[[]|e] f1]|]; [| |discriminate].
    + destruct (MeditationPlayer.report f1) as [o f2].
      intros H. injection H as <- <- <-. split; [reflexivity | discriminate].
    + intros H. injection H as <- <- <-. split; [reflexivity | discriminate].
  - destruct (KeyboardInput.is_tty term) eqn:T; simpl.
    + destruct (MeditationPlayer.loop _ _ _ polls) as [[[[]|e] f1]|]; [| |discriminate].
      * destruct (MeditationPlayer.report f1) as [o f2].
        intros H. injection H as <- <- <-. split; [reflexivity | discriminate].
      * intros H. injection H as <- <- <-. split; [reflexivity | discriminate].
    + intros H. injection H as <- <- <-. split; [reflexivity|].
      intros _ _. repeat split.
Qed.

Lemma meditation_leaves_audio_on_failure_witness :
  let pipe := KeyboardInput.mk_term false
                (KeyboardInput.mk_attr 1280 5 191 35387 15 15 []) [] in
  exists f,
    MeditationPlayer.play_with_progress (fun x => x) KeyboardInput.Posix 180 0 []
      (MeditationPlayer.init "meditation.mp3") Music.init pipe
    = Some (Raise "termios.error", f, pipe)
    /\ AudioPlayer.is_playing (MeditationPlayer.music f) = true.
Proof.
  cbv zeta. eexists. split; [reflexivity|].
  destruct (meditation_leaves_audio_on_failure (fun x => x) KeyboardInput.Posix 180 0 []
              (MeditationPlayer.init "meditation.mp3") Music.init
              (KeyboardInput.mk_term false
                 (KeyboardInput.mk_attr 1280 5 191 35387 15 15 []) [])
              _ _ _ eq_refl)
    as (_ & H).
  destruct (H eq_refl eq_refl) as (_ & _ & Hp & _). exact Hp.
Defined.

(* ================================================================== *)
(** * The focus loop and the timer histories *)

Lemma tick_as_events tk w m :
  key_is (Main.key tk) "q" = false ->
  Main.session (fst (Main.tick tk w))
  = fst (Timeline.run (Main.session w, m) (tick_events tk))
  /\ snd (Main.tick tk w) = Main.Continue.
Proof.
  intros Hq. unfold Main.tick, tick_events. rewrite Hq.
  destruct (key_is (Main.key tk) " ").
  - simpl.
    destruct (FocusSession.toggle_pause (Main.t_toggle tk) (Main.session w)
                (Main.music w)) as [[b s'] m'] eqn:E1.
    destruct (FocusSession.toggle_pause (Main.t_toggle tk) (Main.session w) m)
      as [[b2 s2] m2] eqn:E2.
    assert (s' = s2).
    { unfold FocusSession.toggle_pause in E1, E2.
      destruct (FocusSession.is_paused
                  (FocusSession.set_is_paused
                     (negb (FocusSession.is_paused (Main.session w)))
                     (Main.session w))); congruence. }
    subst s2. simpl. split; reflexivity.
  - destruct (key_is (Main.key tk) "m").
    + destruct (AudioPlayer.toggle_mute _ _) as [[b a'] m']. split; reflexivity.
    + split; reflexivity.
Qed.

Lemma loop_as_events ticks : forall w m,
  (forall tk, In tk ticks -> key_is (Main.key tk) "q" = false) ->
  (FocusSession.session_active (Main.session w) = false ->
   FocusSession.time_remaining (Main.session w) = 0) ->
  FocusSession.time_remaining (Main.session (fst (Main.loop w ticks)))
  = FocusSession.time_remaining
      (fst (Timeline.run (Main.session w, m) (flat_map tick_events ticks)))
  /\ (snd (Main.loop w ticks) = Main.Running ->
      Main.session (fst (Main.loop w ticks))
      = fst (Timeline.run (Main.session w, m) (flat_map tick_events ticks))).
Proof.
  induction ticks as [|tk ticks IH]; intros w m Hq Hk.
  - simpl. destruct (FocusSession.is_complete _); split; reflexivity.
  - simpl Main.loop.
    destruct (FocusSession.is_complete (Main.session w)) eqn:Hc.
    + unfold FocusSession.is_complete in Hc. apply negb_true_iff in Hc.
      destruct (run_inactive (flat_map tick_events (tk :: ticks))
                  (Main.session w, m) Hc (Hk Hc)) as [_ H0].
      simpl fst at 1. simpl snd. split; [|discriminate].
      rewrite H0. apply Hk. exact Hc.
    + destruct (tick_as_events tk w m (Hq tk (or_introl eq_refl))) as [Hs Hf].
      destruct (Main.tick tk w) as [w' fl]. simpl in Hs, Hf. subst fl.
      cbn [flat_map]. rewrite run_app.
      destruct (Timeline.run (Main.session w, m) (tick_events tk)) as [s1 m1] eqn:E.
      simpl in Hs.
      assert (Hk' : FocusSession.session_active (Main.session w') = false ->
                    FocusSession.time_remaining (Main.session w') = 0).
      { rewrite Hs. change s1 with (fst (s1, m1)). rewrite <- E.
        apply run_complete_is_zero. exact Hk. }
      destruct (IH w' m1 (fun t Ht => Hq t (or_intror Ht)) Hk') as [H1 H2].
      rewrite Hs in H1, H2. split; assumption.
Qed.

(** X11. The focus loop drives the timer as a history of calls: an
    iteration that reads space toggles and then updates, every other one
    that is not a quit updates.  Without a quit key the loop ends with the
    [time_remaining] of that history, and while it runs the whole session
    is the history's. *)
Theorem focus_loop_is_a_history (c : Main.choice) (t0 : timestamp)
    (a : AudioPlayer.t) (m m' : Music.t) (ticks : list Main.Tick) :
  (forall tk, In tk ticks -> key_is (Main.key tk) "q" = false) ->
  let after := Main.loop (Main.start c t0 a m) ticks in
  let replay :=
    fst (Timeline.run (FocusSession.init (inject_Z (Main.minutes c)) t0, m')
           (flat_map tick_events ticks)) in
  FocusSession.time_remaining (Main.session (fst after))
  = FocusSession.time_remaining replay
  /\ (snd after = Main.Running -> Main.session (fst after) = replay).
Proof.
  intros Hq. cbn zeta.
  apply (loop_as_events ticks (Main.start c t0 a m) m' Hq).
  simpl. discriminate.
Qed.

Lemma focus_loop_is_a_history_witness :
  let ticks := [Main.mk_tick None 5 5; Main.mk_tick (Some " ") 6 6;
                Main.mk_tick None 10 10; Main.mk_tick (Some " ") 15 16;
                Main.mk_tick (Some "m") 20 20] in
  FocusSession.time_remaining
    (Main.session (fst (Main.loop (Main.start Main.Min21 0 (fst AudioPlayer.init)
                                     (snd AudioPlayer.init)) ticks)))
  = FocusSession.time_remaining
      (fst (Timeline.run (FocusSession.init (inject_Z 21) 0, Music.init)
              [Timeline.Update 5; Timeline.Toggle 6; Timeline.Update 6;
               Timeline.Update 10; Timeline.Toggle 15; Timeline.Update 16;
               Timeline.Update 20])).
Proof.
  cbv zeta.
  refine (proj1 (focus_loop_is_a_history Main.Min21 0 (fst AudioPlayer.init)
                   (snd AudioPlayer.init) Music.init
                   [Main.mk_tick None 5 5; Main.mk_tick (Some " ") 6 6;
                    Main.mk_tick None 10 10; Main.mk_tick (Some " ") 15 16;
                    Main.mk_tick (Some "m") 20 20] _)).
  intros tk Hin. simpl in Hin.
  destruct Hin as [<-|[<-|[<-|[<-|[<-|[]]]]]]; reflexivity.
Defined.

Lemma in_order_updates ticks : forall t,
  Main.in_order t ticks -> Timeline.nondecreasing t (map Main.t_update ticks).
Proof.
  induction ticks as [|tk ticks IH]; intros t H; simpl; [exact I|].
  destruct H as (H1 & H2 & H3). split; [lra | apply IH; exact H3].
Qed.

Lemma updates_only ticks :
  (forall tk, In tk ticks -> key_is (Main.key tk) " " = false
                             /\ key_is (Main.key tk) "q" = false) ->
  flat_map tick_events ticks = map Timeline.Update (map Main.t_update ticks).
Proof.
  induction ticks as [|tk ticks IH]; intros H; [reflexivity|].
  cbn [flat_map map]. rewrite IH by (intros t Ht; apply H; right; exact Ht).
  destruct (H tk (or_introl eq_refl)) as [Hs Hq].
  unfold tick_events. rewrite Hs, Hq.
  destruct (key_is (Main.key tk) "m"); reflexivity.
Qed.

(** X12. Left to run, the countdown ends the loop: with readings in order,
    no space and no quit key, once an iteration's update is made at or after
    the start plus the chosen duration, the loop has exited with exactly 0
    left, and the completion panel, the notification and its sound
    follow. *)
Theorem countdown_completes (c : Main.choice) (t0 : timestamp)
    (a : AudioPlayer.t) (m : Music.t) (ticks : list Main.Tick) :
  Main.in_order t0 ticks ->
  (forall tk, In tk ticks -> key_is (Main.key tk) " " = false
                             /\ key_is (Main.key tk) "q" = false) ->
  t0 + inject_Z (Main.minutes c) * 60 <= last (map Main.t_update ticks) t0 ->
  let after := Main.loop (Main.start c t0 a m) ticks in
  snd after = Main.Exited
  /\ FocusSession.time_remaining (Main.session (fst after)) == 0
  /\ snd (Main.wrap_up (fst after))
     = [Main.CompletePanel; Main.Notification; Main.NotificationSound;
        Main.AwaitEnter].
Proof.
  intros Hord Hkeys Hlast. cbn zeta.
  assert (Hq : forall tk, In tk ticks -> key_is (Main.key tk) "q" = false)
    by (intros tk Ht; apply (Hkeys tk Ht)).
  destruct (loop_as_events ticks (Main.start c t0 a m) m Hq) as [Hrem _];
    [simpl; discriminate|].
  rewrite (updates_only ticks Hkeys) in Hrem.
  assert (Hd : 0 <= inject_Z (Main.minutes c))
    by (destruct c; unfold Qle; simpl; lia).
  pose proof (run_history_time_remaining (inject_Z (Main.minutes c)) t0
                (Timeline.mk_history (map Main.t_update ticks) []) m Hd) as Hh.
  unfold Timeline.chronological, Timeline.events in Hh. simpl in Hh.
  rewrite app_nil_r, map_at_update in Hh.
  specialize (Hh (in_order_updates ticks t0 Hord)).
  assert (Hz : FocusSession.time_remaining
                 (Main.session (fst (Main.loop (Main.start c t0 a m) ticks))) == 0).
  { rewrite Hrem. simpl Main.session. rewrite Hh. apply Q.max_l. lra. }
  assert (Hex : snd (Main.loop (Main.start c t0 a m) ticks) = Main.Exited).
  { destruct (snd (Main.loop (Main.start c t0 a m) ticks)) eqn:E; [|reflexivity].
    pose proof (loop_running_active ticks _ E) as Ha.
    pose proof (loop_live ticks _ (start_live c t0 a m) Ha) as Hl. lra. }
  split; [exact Hex|]. split; [exact Hz|].
  rewrite wrap_up_shows.
  destruct (Qeq_bool _ 0) eqn:E; [reflexivity|].
  apply Qeq_bool_neq in E. contradiction.
Qed.

Lemma countdown_completes_witness :
  let ticks := [Main.mk_tick None 20 20; Main.mk_tick (Some "m") 40 40;
                Main.mk_tick None 61 61] in
  let after := Main.loop (Main.start Main.Min1 0 (fst AudioPlayer.init)
                            (snd AudioPlayer.init)) ticks in
  snd after = Main.Exited
  /\ FocusSession.time_remaining (Main.session (fst after)) == 0.
Proof.
  cbv zeta.
  assert (H : forall tk,
              In tk [Main.mk_tick None 20 20; Main.mk_tick (Some "m") 40 40;
                     Main.mk_tick None 61 61] ->
              key_is (Main.key tk) " " = false /\ key_is (Main.key tk) "q" = false).
  { intros tk Hin. simpl in Hin.
    destruct Hin as [<-|[<-|[<-|[]]]]; split; reflexivity. }
  assert (Hord : Main.in_order 0
                   [Main.mk_tick None 20 20; Main.mk_tick (Some "m") 40 40;
                    Main.mk_tick None 61 61]) by (simpl; repeat split; lra).
  assert (Hl : 0 + inject_Z (Main.minutes Main.Min1) * 60
               <= last (map Main.t_update
                          [Main.mk_tick None 20 20; Main.mk_tick (Some "m") 40 40;
                           Main.mk_tick None 61 61]) 0)
    by (simpl; unfold Qle; simpl; lia).
  destruct (countdown_completes Main.Min1 0 (fst AudioPlayer.init)
              (snd AudioPlayer.init) _ Hord H Hl) as (H1 & H2 & _).
  split; assumption.
Defined.

(* ================================================================== *)
(** * Further properties of the keyboard *)



(** X14. Keys are read without regard to case: on either platform an
    upper-case ASCII letter that a poll reads gives the result its
    lower-case letter gives, be it read off the console, off the
    descriptor, or out of the stream's buffer. *)
Theorem get_key_ignores_case (unicode_lower : KeyboardInput.uchar -> string)
    (c : ascii) (con : list ascii) (b rest : list KeyboardInput.uchar)
    (x : KeyboardInput.uchar) :
  (nat_of_ascii c < 128)%nat ->
  KeyboardInput.get_key unicode_lower KeyboardInput.Win32
    (KeyboardInput.mk_input (c :: con) b rest)
  = KeyboardInput.get_key unicode_lower KeyboardInput.Win32
      (KeyboardInput.mk_input (KeyboardInput.lower_char c :: con) b rest)
  /\ KeyboardInput.get_key unicode_lower KeyboardInput.Posix
       (KeyboardInput.mk_input con [] (String c EmptyString :: rest))
     = KeyboardInput.get_key unicode_lower KeyboardInput.Posix
         (KeyboardInput.mk_input con []
            (String (KeyboardInput.lower_char c) EmptyString :: rest))
  /\ KeyboardInput.get_key unicode_lower KeyboardInput.Posix
       (KeyboardInput.mk_input con (String c EmptyString :: b) (x :: rest))
     = KeyboardInput.get_key unicode_lower KeyboardInput.Posix
         (KeyboardInput.mk_input con
            (String (KeyboardInput.lower_char c) EmptyString :: b) (x :: rest)).
Proof.
  intros H.
  destruct c as [[] [] [] [] [] [] [] []];
    try (repeat split; reflexivity); exfalso; vm_compute in H; lia.
Qed.

Lemma get_key_ignores_case_witness :
  KeyboardInput.get_key (fun c => c) KeyboardInput.Posix
    (KeyboardInput.mk_input [] [] ["Q"; "x"])
  = (Some "q", KeyboardInput.mk_input [] ["x"] [])
  /\ KeyboardInput.get_key (fun c => c) KeyboardInput.Win32
       (KeyboardInput.mk_input ["Q"%char; "x"%char] [] [])
     = KeyboardInput.get_key (fun c => c) KeyboardInput.Win32
         (KeyboardInput.mk_input ["q"%char; "x"%char] [] []).
Proof.
  split; [reflexivity|].
  refine (proj1 (get_key_ignores_case (fun c => c) "Q"%char ["x"%char] [] []
                   EmptyString _)).
  vm_compute. lia.
Defined.

(* ================================================================== *)
(** * Further properties of the meditation loop *)

Lemma inner_loop_idles idle : forall d pause_start f rest,
  (forall q, In q idle -> key_is (MeditationPlayer.key q) " " = false
                          /\ key_is (MeditationPlayer.key q) "s" = false) ->
  MeditationPlayer.loop d (MeditationPlayer.Inner pause_start) f (idle ++ rest)
  = MeditationPlayer.loop d (MeditationPlayer.Inner pause_start) f rest.
Proof.
  induction idle as [|q idle IH]; intros d ps f rest H; [reflexivity|].
  destruct (H q (or_introl eq_refl)) as [Hs Hk].
  simpl. unfold MeditationPlayer.inner_step. rewrite Hs, Hk.
  apply IH. intros q' Hq'. apply H. right. exact Hq'.
Qed.

(** X15. A pause is cut out of the meditation clock: space read while
    playing, any polls that bring neither space nor "s", then space again,
    and the outer loop goes on with [start_time] moved forward by exactly
    the time between the two space polls, [elapsed_time] and the object as
    they were, and the mixer not paused. *)
Theorem pause_is_excised (duration_ms : Q) (f : MeditationPlayer.frame)
    (p r : MeditationPlayer.Poll) (idle rest : list MeditationPlayer.Poll) :
  MeditationPlayer.outer_cond f = true ->
  MeditationPlayer.is_paused (MeditationPlayer.self f) = false ->
  MeditationPlayer.key p = Some " " ->
  (forall q, In q idle -> key_is (MeditationPlayer.key q) " " = false
                          /\ key_is (MeditationPlayer.key q) "s" = false) ->
  MeditationPlayer.key r = Some " " ->
  exists f',
    MeditationPlayer.loop duration_ms MeditationPlayer.Outer f (p :: idle ++ r :: rest)
    = MeditationPlayer.loop duration_ms MeditationPlayer.Outer f' rest
    /\ MeditationPlayer.start_time f'
       = MeditationPlayer.start_time f
         + (MeditationPlayer.now r - MeditationPlayer.now p)
    /\ MeditationPlayer.elapsed_time f' = MeditationPlayer.elapsed_time f
    /\ MeditationPlayer.self f' = MeditationPlayer.self f
    /\ Music.paused (MeditationPlayer.music f') = false.
Proof.
  intros Hc Hp Hkp Hidle Hkr.
  destruct f as [[file skip paused] mu st el]. simpl in Hp. subst paused.
  cbn [MeditationPlayer.loop]. rewrite Hc.
  unfold MeditationPlayer.outer_step. rewrite Hkp.
  change (key_is (Some " ") " ") with true. cbn iota.
  destruct (MeditationPlayer.ended p); simpl;
    rewrite (inner_loop_idles idle _ _ _ (r :: rest) Hidle);
    simpl; unfold MeditationPlayer.inner_step; rewrite Hkr;
    change (key_is (Some " ") " ") with true; cbn iota;
    eexists; (split; [reflexivity|]); simpl; repeat split.
Qed.

Lemma pause_is_excised_witness :
  let f := MeditationPlayer.mk_frame (MeditationPlayer.init "meditation.mp3")
             (AudioPlayer.play "meditation.mp3" false Music.init) 0 4000 in
  exists f',
    MeditationPlayer.loop 180000 MeditationPlayer.Outer f
      [MeditationPlayer.mk_poll false (Some " ") 5;
       MeditationPlayer.mk_poll false None 6;
       MeditationPlayer.mk_poll false (Some "x") 7;
       MeditationPlayer.mk_poll false (Some " ") 15]
    = MeditationPlayer.loop 180000 MeditationPlayer.Outer f' []
    /\ MeditationPlayer.start_time f' = 0 + (15 - 5).
Proof.
  cbv zeta.
  destruct (pause_is_excised 180000
              (MeditationPlayer.mk_frame (MeditationPlayer.init "meditation.mp3")
                 (AudioPlayer.play "meditation.mp3" false Music.init) 0 4000)
              (MeditationPlayer.mk_poll false (Some " ") 5)
              (MeditationPlayer.mk_poll false (Some " ") 15)
              [MeditationPlayer.mk_poll false None 6;
               MeditationPlayer.mk_poll false (Some "x") 7] []
              eq_refl eq_refl eq_refl) as [f' (H1 & H2 & _)].
  - intros q Hq. simpl in Hq. destruct Hq as [<-|[<-|[]]]; split; reflexivity.
  - reflexivity.
  - exists f'. split; [exact H1 | exact H2].
Defined.

(** X16. The meditation ends by itself in two ways: the clock reaches the
    track's length, or the device runs out of the track, which does not
    loop.  Either way an unpaused iteration that reads neither space nor
    "s" is the last one, [elapsed_time] is the time since [start_time] in
    milliseconds, and the report is "complete" with the audio stopped. *)
Theorem meditation_ends_naturally (duration_ms : Q) (f : MeditationPlayer.frame)
    (p : MeditationPlayer.Poll) (polls : list MeditationPlayer.Poll) :
  MeditationPlayer.outer_cond f = true ->
  MeditationPlayer.is_paused (MeditationPlayer.self f) = false ->
  key_is (MeditationPlayer.key p) " " = false ->
  key_is (MeditationPlayer.key p) "s" = false ->
  ~ duration_ms == 0 ->
  (duration_ms <= (MeditationPlayer.now p - MeditationPlayer.start_time f) * 1000
   \/ (MeditationPlayer.ended p = true
       /\ Music.loops (MeditationPlayer.music f) = 0%Z)) ->
  exists f',
    MeditationPlayer.loop duration_ms MeditationPlayer.Outer f (p :: polls)
    = Some (Ok tt, f')
    /\ MeditationPlayer.elapsed_time f'
       = (MeditationPlayer.now p - MeditationPlayer.start_time f) * 1000
    /\ fst (MeditationPlayer.report f') = MeditationPlayer.Complete
    /\ Music.playing (MeditationPlayer.music (snd (MeditationPlayer.report f')))
       = false.
Proof.
  intros Hc Hp Hsp Hs Hd Hend.
  assert (Hskip : MeditationPlayer.skip_requested (MeditationPlayer.self f) = false).
  { unfold MeditationPlayer.outer_cond in Hc. apply andb_true_iff in Hc.
    destruct Hc as [_ Hc]. apply negb_true_iff in Hc. exact Hc. }
  assert (Hz : Qeq_bool duration_ms 0 = false).
  { destruct (Qeq_bool duration_ms 0) eqn:E; [|reflexivity].
    apply Qeq_bool_eq in E. contradiction. }
  destruct f as [[file skip paused] mu st el]. simpl in Hp, Hskip, Hend.
  subst paused skip.
  cbn [MeditationPlayer.loop]. rewrite Hc.
  unfold MeditationPlayer.outer_step. rewrite Hsp, Hs.
  destruct (MeditationPlayer.ended p) eqn:Hen.
  - unfold MeditationPlayer.advance. simpl. rewrite Hz.
    destruct (Qle_bool duration_ms ((MeditationPlayer.now p - st) * 1000)) eqn:Hle.
    + eexists. split; [reflexivity|]. simpl. repeat split.
    + destruct Hend as [Hend|[_ Hl]].
      * apply Qle_bool_iff in Hend. congruence.
      * assert (Hoc : MeditationPlayer.outer_cond
                        (MeditationPlayer.mk_frame
                           (MeditationPlayer.mk file false false)
                           (Music.track_ended mu) st
                           ((MeditationPlayer.now p - st) * 1000)) = false).
        { unfold MeditationPlayer.outer_cond, AudioPlayer.is_playing,
            Music.get_busy, Music.track_ended. simpl. rewrite Hl. reflexivity. }
        exists (MeditationPlayer.mk_frame (MeditationPlayer.mk file false false)
                  (Music.track_ended mu) st ((MeditationPlayer.now p - st) * 1000)).
        split; [|simpl; repeat split].
        apply outer_exit_when_idle. exact Hoc.
  - destruct Hend as [Hend|[Hx _]]; [|discriminate].
    apply Qle_bool_iff in Hend.
    unfold MeditationPlayer.advance. simpl. rewrite Hz, Hend.
    eexists. split; [reflexivity|]. simpl. repeat split.
Qed.

Lemma meditation_ends_naturally_witness :
  let f := MeditationPlayer.mk_frame (MeditationPlayer.init "meditation.mp3")
             (AudioPlayer.play "meditation.mp3" false Music.init) 0 179900 in
  exists f',
    MeditationPlayer.loop 180000 MeditationPlayer.Outer f
      [MeditationPlayer.mk_poll false None 180] = Some (Ok tt, f')
    /\ fst (MeditationPlayer.report f') = MeditationPlayer.Complete.
Proof.
  cbv zeta.
  destruct (meditation_ends_naturally 180000
              (MeditationPlayer.mk_frame (MeditationPlayer.init "meditation.mp3")
                 (AudioPlayer.play "meditation.mp3" false Music.init) 0 179900)
              (MeditationPlayer.mk_poll false None 180) []
              eq_refl eq_refl eq_refl eq_refl) as [f' (H1 & _ & H3 & _)].
  - intros H. discriminate H.
  - left. simpl. lra.
  - exists f'. split; [exact H1 | exact H3].
Defined.

(** X17. A track of length zero makes the first unpaused iteration fail:
    the percentage divides by the duration, so the loop is left by
    ZeroDivisionError, with [elapsed_time] already assigned and nothing
    done to the mixer beyond what the device did. *)
Theorem zero_length_track_raises (duration_ms : Q) (f : MeditationPlayer.frame)
    (p : MeditationPlayer.Poll) (polls : list MeditationPlayer.Poll) :
  duration_ms == 0 ->
  MeditationPlayer.outer_cond f = true ->
  MeditationPlayer.is_paused (MeditationPlayer.self f) = false ->
  key_is (MeditationPlayer.key p) " " = false ->
  key_is (MeditationPlayer.key p) "s" = false ->
  exists f',
    MeditationPlayer.loop duration_ms MeditationPlayer.Outer f (p :: polls)
    = Some (Raise "ZeroDivisionError", f')
    /\ MeditationPlayer.elapsed_time f'
       = (MeditationPlayer.now p - MeditationPlayer.start_time f) * 1000
    /\ MeditationPlayer.self f' = MeditationPlayer.self f
    /\ MeditationPlayer.music f'
       = (if MeditationPlayer.ended p
          then Music.track_ended (MeditationPlayer.music f)
          else MeditationPlayer.music f).
Proof.
  intros Hd Hc Hp Hsp Hs.
  assert (Hz : Qeq_bool duration_ms 0 = true) by (apply Qeq_bool_iff; exact Hd).
  destruct f as [[file skip paused] mu st el]. simpl in Hp. subst paused.
  cbn [MeditationPlayer.loop]. rewrite Hc.
  unfold MeditationPlayer.outer_step. rewrite Hsp, Hs.
  destruct (MeditationPlayer.ended p); unfold MeditationPlayer.advance; simpl;
    rewrite Hz; eexists; (split; [reflexivity|]); simpl; repeat split.
Qed.

Lemma zero_length_track_raises_witness :
  let f := MeditationPlayer.mk_frame (MeditationPlayer.init "meditation.mp3")
             (AudioPlayer.play "meditation.mp3" false Music.init) 0 0 in
  exists f',
    MeditationPlayer.loop (0 * 1000) MeditationPlayer.Outer f
      [MeditationPlayer.mk_poll false None (1 # 10)]
    = Some (Raise "ZeroDivisionError", f').
Proof.
  cbv zeta.
  destruct (zero_length_track_raises (0 * 1000)
              (MeditationPlayer.mk_frame (MeditationPlayer.init "meditation.mp3")
                 (AudioPlayer.play "meditation.mp3" false Music.init) 0 0)
              (MeditationPlayer.mk_poll false None (1 # 10)) []
              (Qmult_0_l 1000) eq_refl eq_refl eq_refl eq_refl)
    as [f' (H1 & _)].
  exists f'. exact H1.
Defined.

(** A completed session whose notification cannot be shown: the exception
    leaves, and the audio is stopped all the same. *)
Example notification_failure_still_cleans_up :
  let fl := Main.mk_faults None None (Some "NotImplementedError") None None in
  let ticks := [Main.mk_tick None 30 30; Main.mk_tick None 61 61] in
  match Main.focus_phase (fun a => a) KeyboardInput.Win32 fl Main.Min1 0 ticks
          (fst AudioPlayer.init) (snd AudioPlayer.init)
          (KeyboardInput.mk_term false (KeyboardInput.mk_attr 0 0 0 0 0 0 []) []) with
  | Some en =>
      Main.outcome en = Raise "NotImplementedError"
      /\ Music.playing (Main.mixer en) = false
  | None => False
  end.
Proof.
  simpl. split; reflexivity.
Qed.
